(** * dra-example: the device lifecycle handler and the inventory publisher

    A shallow embedding of the driver ([pkg/driver/driver.go]) and of
    the publisher ([pkg/driver/publisher.go]).  Go strings are byte strings,
    the [podResources] map and the file system are finite maps, the gRPC
    handlers are programs of a small state monad that threads the driver,
    the file system and the schedule of injected I/O failures, and that can
    stop with a Go run-time panic. *)

From Stdlib Require Import String Ascii List Arith Bool Lia.
From stdpp Require Import base option list strings pretty gmap fin_maps.

Local Open Scope string_scope.
Local Open Scope list_scope.

(** ** Go strings and the [strings] package *)

Definition newline : ascii := "010"%char.
Definition slash : ascii := "/"%char.
Definition dash : ascii := "-"%char.
Definition nl : string := String newline EmptyString.

(** [strings.Split(s, sep)] for a one-byte separator: every separator
    occurrence closes a field, so [n] occurrences give [n + 1] fields and
    the empty string gives one empty field. *)
Fixpoint strings_Split (s : string) (sep : ascii) : list string :=
  match s with
  | EmptyString => [EmptyString]
  | String c s' =>
      if Ascii.eqb c sep then EmptyString :: strings_Split s' sep
      else match strings_Split s' sep with
           | h :: t => String c h :: t
           | [] => [String c EmptyString]
           end
  end.

(** [strings.Join(elems, sep)]. *)
Fixpoint strings_Join (elems : list string) (sep : string) : string :=
  match elems with
  | [] => EmptyString
  | [x] => x
  | x :: rest => x +:+ sep +:+ strings_Join rest sep
  end.

(** [strings.HasSuffix]: [len(s) >= len(suffix) && s[len(s)-len(suffix):] == suffix]. *)
Definition strings_HasSuffix (s suffix : string) : bool :=
  Nat.leb (String.length suffix) (String.length s)
  && String.eqb (substring (String.length s - String.length suffix)
                           (String.length suffix) s) suffix.

(** [strings.ReplaceAll(s, old, new)] for one-byte [old] and [new]. *)
Fixpoint strings_ReplaceAll (s : string) (old new : ascii) : string :=
  match s with
  | EmptyString => EmptyString
  | String c s' =>
      String (if Ascii.eqb c old then new else c) (strings_ReplaceAll s' old new)
  end.

(** A byte occurs in a string. *)
Fixpoint occurs (c : ascii) (s : string) : bool :=
  match s with
  | EmptyString => false
  | String a s' => Ascii.eqb a c || occurs c s'
  end.

(** ** [path/filepath] on Unix *)

(** One step of [filepath.Clean] over the components seen so far, kept in
    reverse: empty and [.] components vanish, [..] removes the component
    before it, is dropped at the root, and is kept at the head of a
    relative path. *)
Definition clean_step (rooted : bool) (stack : list string) (comp : string)
  : list string :=
  if String.eqb comp EmptyString || String.eqb comp "." then stack
  else if String.eqb comp ".." then
    match stack with
    | top :: below =>
        if String.eqb top ".." then comp :: stack else below
    | [] => if rooted then [] else [comp]
    end
  else comp :: stack.

Definition filepath_Clean (path : string) : string :=
  let rooted := match path with String c _ => Ascii.eqb c slash | _ => false end in
  let stack := fold_left (clean_step rooted) (strings_Split path slash) [] in
  let body := strings_Join (rev stack) "/" in
  if rooted then "/" +:+ body
  else if String.eqb body EmptyString then "." else body.

(** [filepath.Join]: the elements from the first non-empty one on, joined
    by the separator and cleaned; the empty string when all are empty. *)
Fixpoint filepath_Join (elem : list string) : string :=
  match elem with
  | [] => EmptyString
  | e :: rest =>
      if String.eqb e EmptyString then filepath_Join rest
      else filepath_Clean (strings_Join elem "/")
  end.

(** ** Errors *)

Inductive errno := ENOENT | EACCES | EIO | ENOSPC.

Definition errno_Error (e : errno) : string :=
  match e with
  | ENOENT => "no such file or directory"
  | EACCES => "permission denied"
  | EIO => "input/output error"
  | ENOSPC => "no space left on device"
  end.

(** Reasons of an API status error ([k8s.io/apimachinery/pkg/api/errors]). *)
Inductive StatusReason :=
  AlreadyExists | NotFound | Conflict | Forbidden | ServerTimeout.

(** Go [error] values the code handles: an [*fs.PathError] from the [os]
    package, an API status error, the result of [fmt.Errorf] without [%w]
    (a plain message) and with [%w] (the message and the wrapped error). *)
Inductive error :=
| PathError (op path : string) (e : errno)
| StatusError (reason : StatusReason) (message : string)
| errorString (msg : string)
| wrapError (msg : string) (err : error).

Definition err_Error (err : error) : string :=
  match err with
  | PathError op path e => op +:+ " " +:+ path +:+ ": " +:+ errno_Error e
  | StatusError _ message => message
  | errorString msg => msg
  | wrapError msg _ => msg
  end.

(** [fmt.Errorf(prefix + "%w", err)]. *)
Definition Errorf_w (prefix : string) (err : error) : error :=
  wrapError (prefix +:+ err_Error err) err.

(** [os.IsNotExist]: looks at the error itself, it does not unwrap. *)
Definition os_IsNotExist (err : error) : bool :=
  match err with
  | PathError _ _ ENOENT => true
  | _ => false
  end.

(** [apierrors.IsAlreadyExists]. *)
Definition IsAlreadyExists (err : error) : bool :=
  match err with
  | StatusError AlreadyExists _ => true
  | _ => false
  end.

Inductive result (A : Type) :=
| Ok (a : A)
| Err (e : error).
Arguments Ok {A} a.
Arguments Err {A} e.

(** ** The world outside the process *)

(** The failures that can happen to a call of the [os] package whatever
    the files are.  "No such file" is not one of them: a call returns it
    exactly when the file is not there.  The first three show in the first
    system call of the call that meets them.  The last two show later:
    the device is full once [n] more bytes are written, or an I/O error is
    reported when the file is closed; a call that writes no data fails on
    them at once. *)
Inductive fault :=
| FaultEACCES
| FaultEIO
| FaultENOSPC
| FaultShortWrite (n : nat)
| FaultCloseEIO.

Definition fault_errno (f : fault) : errno :=
  match f with
  | FaultEACCES => EACCES
  | FaultEIO => EIO
  | FaultENOSPC => ENOSPC
  | FaultShortWrite _ => ENOSPC
  | FaultCloseEIO => EIO
  end.

(** The files of the node, by path, and the schedule of failures the
    operating system is going to answer with: every call of the [os]
    package below consumes one entry ([None], or an exhausted schedule:
    the call goes through).  A failing call that reads, removes or makes
    a directory leaves the files as they are; what a failing write leaves
    is told at [os_WriteFile]. *)
Record World := mkWorld {
  files : gmap string string;
  faults : list (option fault)
}.

(** ** The driver *)

Definition resourceFileName : string := "file1".
Definition cdiDir : string := "/var/run/cdi".
Definition cdiVersion : string := "0.5.0".

Record Driver := mkDriver {
  driverName : string;
  nodeName : string;
  pluginSocket : string;
  resourceDir : string;
  (* claimUID -> podName *)
  podResources : gmap string string
}.

Definition New (driverName nodeName pluginSocket resourceDir : string) : Driver :=
  mkDriver driverName nodeName pluginSocket resourceDir ∅.

(** The driver after an assignment to, or a [delete] from, [podResources]. *)
Definition withPodResources (d : Driver) (m : gmap string string) : Driver :=
  mkDriver (driverName d) (nodeName d) (pluginSocket d) (resourceDir d) m.

Record State := mkState {
  drv : Driver;
  world : World
}.

(** Go run-time panics. *)
Inductive panic :=
| SliceBoundsOutOfRange (high len : nat).

Inductive outcome (A : Type) :=
| Ret (a : A)
| Panic (p : panic).
Arguments Ret {A} a.
Arguments Panic {A} p.

(** Programs over the driver and the world.  The mutex of the driver is
    not part of the state: [prepareResource] and [unprepareResource] hold
    it from their first to their last statement, so concurrent calls take
    effect one after the other, in some order, and a run of the handler is
    a sequence of such calls. *)
Definition M (A : Type) : Type := State -> outcome A * State.

#[global] Instance M_ret : MRet M := fun A a st => (Ret a, st).
#[global] Instance M_bind : MBind M := fun A B f m st =>
  match m st with
  | (Ret a, st') => f a st'
  | (Panic p, st') => (Panic p, st')
  end.

Definition goPanic {A} (p : panic) : M A := fun st => (Panic p, st).
Definition getDriver : M Driver := fun st => (Ret (drv st), st).
Definition getFiles : M (gmap string string) := fun st => (Ret (files (world st)), st).

Definition setFiles (fs : gmap string string) : M unit := fun st =>
  (Ret tt, mkState (drv st) (mkWorld fs (faults (world st)))).

Definition setPodResources (m : gmap string string) : M unit := fun st =>
  (Ret tt, mkState (withPodResources (drv st) m) (world st)).

(** The next entry of the failure schedule. *)
Definition nextFault : M (option fault) := fun st =>
  match faults (world st) with
  | [] => (Ret None, st)
  | f :: rest => (Ret f, mkState (drv st) (mkWorld (files (world st)) rest))
  end.

(** *** The [os] package *)

Definition os_ReadFile (name : string) : M (result string) :=
  f ← nextFault;
  match f with
  | Some e => mret (Err (PathError "open" name (fault_errno e)))
  | None =>
      fs ← getFiles;
      match fs !! name with
      | Some data => mret (Ok data)
      | None => mret (Err (PathError "open" name ENOENT))
      end
  end.

(** [os.WriteFile] opens the file with [O_WRONLY|O_CREATE|O_TRUNC], writes
    the data and closes the file, and returns the first error of the
    three.  (The open fails too when a directory of the path is missing;
    directories are not part of the model, see [os_MkdirAll], and a
    failing open is one of the first three faults.)  The system call in
    which a failure shows: *)
Definition writeOp (e : fault) : string :=
  match e with
  | FaultShortWrite _ => "write"
  | FaultCloseEIO => "close"
  | _ => "open"
  end.

(** The files after a write that fails.  When the open fails nothing has
    happened.  After it the file exists and has been truncated: a write
    that fails leaves the bytes that were written before it failed, a
    close that fails leaves them all. *)
Definition written (e : fault) (name data : string) (fs : gmap string string)
  : gmap string string :=
  match e with
  | FaultShortWrite n => <[name := substring 0 n data]> fs
  | FaultCloseEIO => <[name := data]> fs
  | _ => fs
  end.

Definition os_WriteFile (name data : string) : M (option error) :=
  f ← nextFault;
  fs ← getFiles;
  match f with
  | Some e =>
      setFiles (written e name data fs);;
      mret (Some (PathError (writeOp e) name (fault_errno e)))
  | None =>
      setFiles (<[name := data]> fs);;
      mret None
  end.

Definition os_Remove (name : string) : M (option error) :=
  f ← nextFault;
  match f with
  | Some e => mret (Some (PathError "remove" name (fault_errno e)))
  | None =>
      fs ← getFiles;
      match fs !! name with
      | Some _ => setFiles (delete name fs);; mret None
      | None => mret (Some (PathError "remove" name ENOENT))
      end
  end.

(** Directories are not files of the model: [os.MkdirAll] only succeeds
    or fails. *)
Definition os_MkdirAll (path : string) : M (option error) :=
  f ← nextFault;
  match f with
  | Some e => mret (Some (PathError "mkdir" path (fault_errno e)))
  | None => mret None
  end.

(** *** The request and response messages of the DRA plugin API *)

Record Claim := mkClaim {
  Namespace : string;
  Uid : string;
  Name : string
}.

Record Device := mkDevice {
  PoolName : string;
  DeviceName : string;
  CdiDeviceIds : list string
}.

Record NodePrepareResourceResponse := mkPrepareResponse {
  Devices : list Device;
  Error : string
}.

Record NodeUnprepareResourceResponse := mkUnprepareResponse {
  UnprepareError : string
}.

(** *** CDI spec structures *)

Record cdiMount := mkMount {
  HostPath : string;
  ContainerPath : string;
  Options : list string
}.

Record cdiContainerEdits := mkEdits {
  Mounts : list cdiMount
}.

Record cdiDevice := mkCdiDevice {
  cdiName : string;
  ContainerEdits : cdiContainerEdits
}.

Record cdiSpec := mkSpec {
  CDIVersion : string;
  Kind : string;
  cdiDevices : list cdiDevice
}.

(** [json.MarshalIndent] on a [cdiSpec] is the encoder of Go's standard
    library; the driver only passes its result on, so the encoder is a
    parameter of the model. *)
Class JSON := json_MarshalIndent : cdiSpec -> string -> string -> result string.

(** *** The handler *)

(** [claim.Uid[:8]]: panics when the string is shorter than 8 bytes. *)
Definition slice_to (s : string) (high : nat) : M string :=
  if Nat.leb high (String.length s) then mret (substring 0 high s)
  else goPanic (SliceBoundsOutOfRange high (String.length s)).

Definition extractPodName (claim : Claim) : M string :=
  if negb (String.eqb (Name claim) EmptyString) then
    mret ("pod-using-" +:+ Name claim)
  else
    prefix ← slice_to (Uid claim) 8;
    mret ("pod-" +:+ prefix).

(** The record of a claim in the resource file. *)
Definition formatLine (podName claimUID : string) : string :=
  podName +:+ " (claim: " +:+ claimUID +:+ ")".

Definition resourceFilePath (d : Driver) : string :=
  filepath_Join [resourceDir d; resourceFileName].

Definition prepareResource (claimUID podName : string) : M (option error) :=
  d ← getDriver;
  let filePath := resourceFilePath d in
  let content := formatLine podName claimUID +:+ nl in
  err ← os_WriteFile filePath content;
  match err with
  | Some err => mret (Some (Errorf_w "failed to write resource file: " err))
  | None =>
      setPodResources (<[claimUID := podName]> (podResources d));;
      mret None
  end.

(** The loop of [unprepareResource] over the lines of the file. *)
Definition keepLine (searchPattern line : string) : bool :=
  negb (String.eqb line EmptyString) && negb (String.eqb line searchPattern).

Definition unprepareResource (claimUID : string) : M (option error) :=
  d ← getDriver;
  match podResources d !! claimUID with
  | None => mret None
  | Some podName =>
      let filePath := resourceFilePath d in
      r ← os_ReadFile filePath;
      match r with
      | Err err =>
          if os_IsNotExist err then mret None
          else mret (Some (Errorf_w "failed to read resource file: " err))
      | Ok data =>
          let lines := strings_Split data newline in
          let searchPattern := formatLine podName claimUID in
          let newLines := List.filter (keepLine searchPattern) lines in
          let newContent := strings_Join newLines nl in
          let newContent :=
            if negb (String.eqb newContent EmptyString)
               && negb (strings_HasSuffix newContent nl)
            then newContent +:+ nl else newContent in
          err ← os_WriteFile filePath newContent;
          match err with
          | Some err => mret (Some (Errorf_w "failed to write resource file: " err))
          | None =>
              setPodResources (delete claimUID (podResources d));;
              mret None
          end
      end
  end.

Definition cdiFileName (d : Driver) : string :=
  strings_ReplaceAll (driverName d) slash dash +:+ "-file-" +:+ resourceFileName +:+ ".json".

Definition cdiFilePath (d : Driver) : string :=
  filepath_Join [cdiDir; cdiFileName d].

(** The spec [createCDISpec] marshals. *)
Definition cdiSpecOf (d : Driver) : cdiSpec :=
  let filePath := resourceFilePath d in
  {| CDIVersion := cdiVersion;
     Kind := driverName d +:+ "/file";
     cdiDevices :=
       [ {| cdiName := resourceFileName;
            ContainerEdits :=
              {| Mounts := [ {| HostPath := filePath;
                                ContainerPath := filePath;
                                Options := ["ro"; "bind"] |} ] |} |} ] |}.

Section Handler.
Context `{JSON}.

Definition createCDISpec (claimUID : string) : M (option error) :=
  err ← os_MkdirAll cdiDir;
  match err with
  | Some err => mret (Some (Errorf_w "failed to create CDI directory: " err))
  | None =>
      d ← getDriver;
      match json_MarshalIndent (cdiSpecOf d) EmptyString "  " with
      | Err err => mret (Some (Errorf_w "failed to marshal CDI spec: " err))
      | Ok data =>
          err ← os_WriteFile (cdiFilePath d) data;
          match err with
          | Some err => mret (Some (Errorf_w "failed to write CDI spec: " err))
          | None => mret None
          end
      end
  end.

Definition deleteCDISpec (claimUID : string) : M (option error) :=
  d ← getDriver;
  err ← os_Remove (cdiFilePath d);
  match err with
  | Some err =>
      if negb (os_IsNotExist err)
      then mret (Some (Errorf_w "failed to delete CDI spec: " err))
      else mret None
  | None => mret None
  end.

(** The body of the loop of [NodePrepareResources] for one claim; every
    [continue] of the source is the end of a branch here. *)
Definition prepareClaim (resp : gmap string NodePrepareResourceResponse)
    (claim : Claim) : M (gmap string NodePrepareResourceResponse) :=
  podName ← extractPodName claim;
  err ← prepareResource (Uid claim) podName;
  match err with
  | Some err =>
      mret (<[Uid claim := mkPrepareResponse [] (err_Error err)]> resp)
  | None =>
      d ← getDriver;
      let cdiDeviceID := driverName d +:+ "/file=" +:+ resourceFileName in
      err ← createCDISpec (Uid claim);
      match err with
      | Some err =>
          mret (<[Uid claim := mkPrepareResponse [] (err_Error err)]> resp)
      | None =>
          mret (<[Uid claim :=
                    mkPrepareResponse
                      [mkDevice "default" resourceFileName [cdiDeviceID]] EmptyString]> resp)
      end
  end.

(** A [for ... range] loop that threads the response map. *)
Fixpoint forClaims {R} (body : R -> Claim -> M R) (claims : list Claim) (resp : R)
  : M R :=
  match claims with
  | [] => mret resp
  | claim :: rest => resp' ← body resp claim; forClaims body rest resp'
  end.

Definition NodePrepareResources (req : list Claim)
  : M (gmap string NodePrepareResourceResponse) :=
  forClaims prepareClaim req ∅.

Definition unprepareClaim (resp : gmap string NodeUnprepareResourceResponse)
    (claim : Claim) : M (gmap string NodeUnprepareResourceResponse) :=
  err ← unprepareResource (Uid claim);
  match err with
  | Some err =>
      mret (<[Uid claim := mkUnprepareResponse (err_Error err)]> resp)
  | None =>
      (* a failure to delete the CDI spec is only logged *)
      _ ← deleteCDISpec (Uid claim);
      mret (<[Uid claim := mkUnprepareResponse EmptyString]> resp)
  end.

Definition NodeUnprepareResources (req : list Claim)
  : M (gmap string NodeUnprepareResourceResponse) :=
  forClaims unprepareClaim req ∅.

End Handler.

(** ** The inventory publisher *)

Module Publisher.

Record ResourcePool := mkPool {
  poolName : string;
  Generation : nat;
  ResourceSliceCount : nat
}.

Record apiDevice := mkApiDevice {
  deviceName : string;
  (* QualifiedName -> the StringValue of the attribute *)
  Attributes : gmap string string
}.

Record ResourceSlice := mkSlice {
  sliceName : string;            (* ObjectMeta.Name *)
  ResourceVersion : string;      (* ObjectMeta.ResourceVersion *)
  specDriver : string;
  specNodeName : string;
  Pool : ResourcePool;
  sliceDevices : list apiDevice
}.

Definition withResourceVersion (s : ResourceSlice) (rv : string) : ResourceSlice :=
  mkSlice (sliceName s) rv (specDriver s) (specNodeName s) (Pool s) (sliceDevices s).

(** [resourceclient.ResourceSliceInterface], the part the publisher calls,
    over the state [B] of whatever answers the calls. *)
Class ResourceSliceInterface (B : Type) := {
  Create : ResourceSlice -> B -> result ResourceSlice * B;
  Update : ResourceSlice -> B -> result ResourceSlice * B;
  Get : string -> B -> result ResourceSlice * B;
  Delete : string -> B -> option error * B
}.

Record ResourcePublisher := mkPublisher {
  driverName : string;
  nodeName : string;
  resourceName : string
}.

Definition sliceNameOf (p : ResourcePublisher) : string :=
  nodeName p +:+ "-" +:+ driverName p.

(** The ResourceSlice [PublishResources] builds. *)
Definition sliceOf (p : ResourcePublisher) : ResourceSlice :=
  {| sliceName := sliceNameOf p;
     ResourceVersion := EmptyString;
     specDriver := driverName p;
     specNodeName := nodeName p;
     Pool := {| poolName := nodeName p; Generation := 1; ResourceSliceCount := 1 |};
     sliceDevices :=
       [ {| deviceName := resourceName p;
            Attributes :=
              <["file.dra.example.com/type" := "file"]>
              (<["file.dra.example.com/filename" := resourceName p]>
              (<["file.dra.example.com/path" := "/etc/dra/" +:+ resourceName p]> ∅)) |} ] |}.

Section Publish.
Context {B : Type} `{ResourceSliceInterface B}.

Definition PublishResources (p : ResourcePublisher) (b : B) : option error * B :=
  let slice := sliceOf p in
  match Create slice b with
  | (Ok _, b) => (None, b)
  | (Err err, b) =>
      (* Try update if create fails *)
      match Get (sliceNameOf p) b with
      | (Err getErr, b) =>
          (Some (errorString
                   ("failed to create or get ResourceSlice: create="
                    +:+ err_Error err +:+ ", get=" +:+ err_Error getErr)), b)
      | (Ok existing, b) =>
          let slice := withResourceVersion slice (ResourceVersion existing) in
          match Update slice b with
          | (Err err, b) => (Some (Errorf_w "failed to update ResourceSlice: " err), b)
          | (Ok _, b) => (None, b)
          end
      end
  end.

Definition UnpublishResources (p : ResourcePublisher) (b : B) : option error * B :=
  match Delete (sliceNameOf p) b with
  | (Some err, b) => (Some (Errorf_w "failed to delete ResourceSlice: " err), b)
  | (None, b) => (None, b)
  end.

(** What [StartPublishing] waits for in its [select]: the ticker fires, or
    the context is done. *)
Inductive event := Tick | Done.

(** How far [StartPublishing] has come on the events so far: whether it
    has returned, the state of the API server, and the lines it has
    written with [klog.Errorf]. *)
Record publishing := mkPublishing {
  returned : bool;
  server : B;
  errorLog : list string
}.

Definition logFailure (prefix : string) (r : option error) (log : list string)
  : list string :=
  match r with
  | Some err => log ++ [prefix +:+ err_Error err]
  | None => log
  end.

(** The [for] loop with its [select]. *)
Fixpoint publishingLoop (p : ResourcePublisher) (events : list event)
    (b : B) (log : list string) : publishing :=
  match events with
  | [] => mkPublishing false b log
  | Done :: _ =>
      (* Cleanup on shutdown *)
      let (r, b) := UnpublishResources p b in
      mkPublishing true b (logFailure "Failed to unpublish resources: " r log)
  | Tick :: rest =>
      let (r, b) := PublishResources p b in
      publishingLoop p rest b (logFailure "Failed to refresh resources: " r log)
  end.

Definition StartPublishing (p : ResourcePublisher) (events : list event) (b : B)
  : publishing :=
  (* Initial publish *)
  let (r, b) := PublishResources p b in
  publishingLoop p events b (logFailure "Failed to publish resources: " r []).

End Publish.

(** An API server in memory, to run the publisher on: the stored slices,
    a counter for resource versions, and a schedule of injected failures
    (one entry per call, as for the [os] package).  [Create] refuses an
    existing name, [Update] wants the name to exist and the resource
    version of the request to be the stored one. *)
Record Broker := mkBroker {
  slices : gmap string ResourceSlice;
  revision : nat;
  apiFaults : list (option StatusReason)
}.

Definition versionString (n : nat) : string := pretty n.

Definition popApiFault (b : Broker) : option StatusReason * Broker :=
  match apiFaults b with
  | [] => (None, b)
  | f :: rest => (f, mkBroker (slices b) (revision b) rest)
  end.

Definition store (s : ResourceSlice) (b : Broker) : ResourceSlice * Broker :=
  let s' := withResourceVersion s (versionString (S (revision b))) in
  (s', mkBroker (<[sliceName s := s']> (slices b)) (S (revision b)) (apiFaults b)).

Definition brokerCreate (s : ResourceSlice) (b : Broker) : result ResourceSlice * Broker :=
  match popApiFault b with
  | (Some r, b) => (Err (StatusError r "injected failure"), b)
  | (None, b) =>
      match slices b !! sliceName s with
      | Some _ => (Err (StatusError AlreadyExists
                          ("resourceslices '" +:+ sliceName s +:+ "' already exists")), b)
      | None => let (s', b') := store s b in (Ok s', b')
      end
  end.

Definition brokerGet (name : string) (b : Broker) : result ResourceSlice * Broker :=
  match popApiFault b with
  | (Some r, b) => (Err (StatusError r "injected failure"), b)
  | (None, b) =>
      match slices b !! name with
      | Some s => (Ok s, b)
      | None => (Err (StatusError NotFound ("resourceslices '" +:+ name +:+ "' not found")), b)
      end
  end.

Definition brokerUpdate (s : ResourceSlice) (b : Broker) : result ResourceSlice * Broker :=
  match popApiFault b with
  | (Some r, b) => (Err (StatusError r "injected failure"), b)
  | (None, b) =>
      match slices b !! sliceName s with
      | None => (Err (StatusError NotFound
                        ("resourceslices '" +:+ sliceName s +:+ "' not found")), b)
      | Some old =>
          if String.eqb (ResourceVersion s) (ResourceVersion old)
          then let (s', b') := store s b in (Ok s', b')
          else (Err (StatusError Conflict "the object has been modified"), b)
      end
  end.

Definition brokerDelete (name : string) (b : Broker) : option error * Broker :=
  match popApiFault b with
  | (Some r, b) => (Some (StatusError r "injected failure"), b)
  | (None, b) =>
      match slices b !! name with
      | Some _ => (None, mkBroker (delete name (slices b)) (revision b) (apiFaults b))
      | None => (Some (StatusError NotFound ("resourceslices '" +:+ name +:+ "' not found")), b)
      end
  end.

#[global] Instance brokerClient : ResourceSliceInterface Broker := {
  Create := brokerCreate;
  Update := brokerUpdate;
  Get := brokerGet;
  Delete := brokerDelete
}.

End Publisher.

(** * Observations, runs and sample data *)

(** ** Observations on a state *)

(** The final state of a program. *)
Definition exec {A} (m : M A) (st : State) : State := snd (m st).

(** The content of the resource file, when it exists. *)
Definition resourceContent (st : State) : option string :=
  files (world st) !! resourceFilePath (drv st).

(** The line records of a file content: its non-empty lines. *)
Definition fileLines (content : string) : list string :=
  List.filter (fun line => negb (String.eqb line EmptyString))
              (strings_Split content newline).

Definition resourceLines (st : State) : list string :=
  match resourceContent st with
  | Some content => fileLines content
  | None => []
  end.

(** The descriptor file, when it exists. *)
Definition descriptorContent (st : State) : option string :=
  files (world st) !! cdiFilePath (drv st).

(** A line is the record of an entry of [podResources]. *)
Definition tracked (st : State) (line : string) : Prop :=
  exists claimUID podName,
    podResources (drv st) !! claimUID = Some podName /\
    line = formatLine podName claimUID.

(** A driver that has just been created, on a node without resource file. *)
Definition fresh (st : State) : Prop :=
  podResources (drv st) = ∅ /\ resourceContent st = None.

(** No failure is scheduled. *)
Definition noFaults (st : State) : Prop := Forall (eq None) (faults (world st)).

(** The read of the next call is not scheduled to fail. *)
Definition readGoesThrough (st : State) : Prop :=
  forall f rest, faults (world st) <> Some f :: rest.

(** What a write of [data] that fails can leave of a file that held [old]:
    the file as it was, or, when the failure comes after the open has
    truncated it, a prefix of [data] (none of it, or all of it when the
    failure shows at the close). *)
Definition afterFailedWrite (old : option string) (data : string)
    (new : option string) : Prop :=
  new = old \/ exists n, new = Some (substring 0 n data).

(** Every write that is scheduled to fail fails when it opens the file:
    no write is cut short. *)
Definition failsAtOpen (f : option fault) : Prop :=
  forall e, f = Some e -> writeOp e = "open".

Definition wholeWrites (st : State) : Prop :=
  Forall failsAtOpen (faults (world st)).

(** Somebody outside the driver removes a file. *)
Definition removeFile (path : string) (st : State) : State :=
  mkState (drv st) (mkWorld (delete path (files (world st))) (faults (world st))).

(** ** Strings *)

(** No line feed in a string. *)
Definition singleLine (s : string) : Prop := occurs newline s = false.

Definition nonEmpty (s : string) : Prop := s <> EmptyString.

(** The last byte of a string. *)
Fixpoint lastByte (s : string) : option ascii :=
  match s with
  | EmptyString => None
  | String c EmptyString => Some c
  | String _ s' => lastByte s'
  end.

(** What [unprepareResource] writes back for a file content [data]. *)
Definition rewritten (searchPattern data : string) : string :=
  let newContent :=
    strings_Join (List.filter (keepLine searchPattern) (strings_Split data newline)) nl in
  if negb (String.eqb newContent EmptyString) && negb (strings_HasSuffix newContent nl)
  then newContent +:+ nl else newContent.

(** ** Runs of the two critical sections *)

Inductive call :=
| Prepare (claimUID podName : string)
| Unprepare (claimUID : string).

Definition perform (c : call) : M (option error) :=
  match c with
  | Prepare claimUID podName => prepareResource claimUID podName
  | Unprepare claimUID => unprepareResource claimUID
  end.

(** The calls of a run, in the order in which they get the mutex; the
    errors they return, in the same order. *)
Fixpoint performAll (cs : list call) : M (list (option error)) :=
  match cs with
  | [] => mret []
  | c :: rest =>
      r ← perform c;
      rs ← performAll rest;
      mret (r :: rs)
  end.

(** The prepare calls for a list of claim ids with their labels. *)
Definition prepareCalls (reqs : list (string * string)) : list call :=
  List.map (fun r => Prepare (fst r) (snd r)) reqs.

Definition wellFormedCall (c : call) : Prop :=
  match c with
  | Prepare claimUID podName => singleLine claimUID /\ singleLine podName
  | Unprepare _ => True
  end.

(** The resource file holds nothing or the record of one tracked claim. *)
Definition consistent (st : State) : Prop :=
  match resourceContent st with
  | None => True
  | Some content =>
      content = EmptyString \/
      exists claimUID podName,
        podResources (drv st) !! claimUID = Some podName /\
        singleLine (formatLine podName claimUID) /\
        content = formatLine podName claimUID +:+ nl
  end.

(** While a claim is tracked the resource file exists. *)
Definition fileKept (st : State) : Prop :=
  forall claimUID, is_Some (podResources (drv st) !! claimUID) ->
                   is_Some (resourceContent st).

(** Whether a claim id should be tracked after a call that returned [r],
    when [before] tells whether it was: a successful prepare for it makes
    it tracked, a successful unprepare for it untracked. *)
Definition trackedAfter (claimUID : string) (before : bool)
    (cr : call * option error) : bool :=
  match cr with
  | (Prepare uid _, None) => if String.eqb uid claimUID then true else before
  | (Unprepare uid, None) => if String.eqb uid claimUID then false else before
  | (_, Some _) => before
  end.

(** The same after a run, from its calls and what they returned. *)
Definition trackedByHistory (claimUID : string) (calls : list call)
    (rs : list (option error)) : bool :=
  fold_left (trackedAfter claimUID) (combine calls rs) false.

(** ** Results of a batch *)

(** [extractPodName] can slice the uid of the claim, or does not have to. *)
Definition sliceable (claim : Claim) : Prop :=
  Name claim <> EmptyString \/ 8 <= String.length (Uid claim).

(** A per-claim result: devices and no error, or an error and no device. *)
Definition devicesXorError (r : NodePrepareResourceResponse) : Prop :=
  Devices r <> [] /\ Error r = EmptyString \/
  Devices r = [] /\ Error r <> EmptyString.

(** The results [prepareClaim] records. *)
Definition failed (err : error) : NodePrepareResourceResponse :=
  mkPrepareResponse [] (err_Error err).

Definition prepared (d : Driver) : NodePrepareResourceResponse :=
  mkPrepareResponse
    [mkDevice "default" resourceFileName
       [driverName d +:+ "/file=" +:+ resourceFileName]] EmptyString.

(** The result of a claim that can be labelled, from the configuration of
    the driver and the failures to come alone. *)
Definition claimVerdict `{JSON} (d : Driver) (fl : list (option fault))
  : NodePrepareResourceResponse :=
  match fl with
  | Some e :: _ =>
      failed (Errorf_w "failed to write resource file: "
                (PathError (writeOp e) (resourceFilePath d) (fault_errno e)))
  | _ =>
      match tail fl with
      | Some e :: _ =>
          failed (Errorf_w "failed to create CDI directory: "
                    (PathError "mkdir" cdiDir (fault_errno e)))
      | _ =>
          match json_MarshalIndent (cdiSpecOf d) EmptyString "  " with
          | Err err => failed (Errorf_w "failed to marshal CDI spec: " err)
          | Ok _ =>
              match tail (tail fl) with
              | Some e :: _ =>
                  failed (Errorf_w "failed to write CDI spec: "
                            (PathError (writeOp e) (cdiFilePath d) (fault_errno e)))
              | _ => prepared d
              end
          end
      end
  end.

(** The mount of the resource file into the consumer. *)
Definition resourceMount (d : Driver) : cdiMount :=
  {| HostPath := resourceFilePath d;
     ContainerPath := resourceFilePath d;
     Options := ["ro"; "bind"] |}.

(** ** Sample data *)

Definition sampleDriver : Driver :=
  New "dra.example.com" "node-1" "/var/lib/kubelet/plugins/dra.example.com/dra.sock" "/etc/dra".

(** A fresh driver on a node without files, where no call fails. *)
Definition sampleState : State := mkState sampleDriver (mkWorld ∅ []).

Definition claimA : Claim := mkClaim "default" "abc123" "claim-A".
Definition claimB : Claim := mkClaim "default" "def456" "claim-B".

(** A claim whose name holds a line feed. *)
Definition claimTwoLines : Claim := mkClaim "default" "abc123" ("claim" +:+ nl +:+ "A").

(** A claim without name whose uid has fewer than 8 bytes. *)
Definition claimShortUid : Claim := mkClaim "default" "abc" EmptyString.

(** The claim of [claimA] is prepared, then the resource file is removed
    from the node. *)
Definition preparedThenFileRemoved : State :=
  removeFile (resourceFilePath sampleDriver)
             (exec (prepareResource "abc123" "pod-using-claim-A") sampleState).

(** The claim of [claimA] is prepared; the read of the next unprepare is
    going to fail. *)
Definition preparedReadFails : State :=
  let st := exec (prepareResource "abc123" "pod-using-claim-A") sampleState in
  mkState (drv st) (mkWorld (files (world st)) [Some FaultEIO]).

(** The same, with a read that goes through and a write that fails on a
    full device, after the open and before any byte is written. *)
Definition preparedWriteFails : State :=
  let st := exec (prepareResource "abc123" "pod-using-claim-A") sampleState in
  mkState (drv st) (mkWorld (files (world st)) [None; Some (FaultShortWrite 0)]).

(** A stand-in for the JSON encoder, to run the handler on the sample
    data: it lays the spec out on one line and does not escape. *)
Definition quoted (s : string) : string :=
  let q := String (ascii_of_nat 34) EmptyString in q +:+ s +:+ q.

Definition sampleMount (m : cdiMount) : string :=
  "{" +:+ quoted "hostPath" +:+ ": " +:+ quoted (HostPath m) +:+ ", "
  +:+ quoted "containerPath" +:+ ": " +:+ quoted (ContainerPath m) +:+ ", "
  +:+ quoted "options" +:+ ": ["
  +:+ strings_Join (List.map quoted (Options m)) ", " +:+ "]}".

Definition sampleDevice (dev : cdiDevice) : string :=
  "{" +:+ quoted "name" +:+ ": " +:+ quoted (cdiName dev) +:+ ", "
  +:+ quoted "containerEdits" +:+ ": {" +:+ quoted "mounts" +:+ ": ["
  +:+ strings_Join (List.map sampleMount (Mounts (ContainerEdits dev))) ", " +:+ "]}}".

Definition sampleJSON : JSON := fun spec _ _ =>
  Ok ("{" +:+ quoted "cdiVersion" +:+ ": " +:+ quoted (CDIVersion spec) +:+ ", "
      +:+ quoted "kind" +:+ ": " +:+ quoted (Kind spec) +:+ ", "
      +:+ quoted "devices" +:+ ": ["
      +:+ strings_Join (List.map sampleDevice (cdiDevices spec)) ", " +:+ "]}").

(** Both sample claims are prepared in one batch. *)
Definition bothPrepared : State :=
  exec (@NodePrepareResources sampleJSON [claimA; claimB]) sampleState.

Definition samplePublisher : Publisher.ResourcePublisher :=
  Publisher.mkPublisher "dra.example.com" "node-1" "file1".

Definition emptyBroker : Publisher.Broker := Publisher.mkBroker ∅ 0 [].

(** The API server after a first publish. *)
Definition publishedBroker : Publisher.Broker :=
  snd (Publisher.PublishResources samplePublisher emptyBroker).

(** The same, with a time-out scheduled for the next call. *)
Definition publishedBrokerTimeout : Publisher.Broker :=
  Publisher.mkBroker (Publisher.slices publishedBroker)
                     (Publisher.revision publishedBroker) [Some ServerTimeout].

(** The same, with the next two calls failing. *)
Definition publishedBrokerDown : Publisher.Broker :=
  Publisher.mkBroker (Publisher.slices publishedBroker)
                     (Publisher.revision publishedBroker)
                     [Some ServerTimeout; Some ServerTimeout].

(** ** Sentences of the specification that the code does not satisfy, as
    they are written *)

(** "N concurrent prepare calls for distinct claim ids each produce a
    distinct line in ResourceFile, and the final file contains exactly N
    lines, regardless of call interleaving". *)
Definition prepare_appends_as_stated : Prop :=
  forall (st : State) (reqs : list (string * string)),
    NoDup (List.map fst reqs) ->
    fresh st ->
    fst (performAll (prepareCalls reqs) st) = Ret (List.map (fun _ => None) reqs) ->
    length (resourceLines (exec (performAll (prepareCalls reqs)) st)) = length reqs.

(** "the set of lines is exactly the image of DeviceRecord under a
    formatting function". *)
Definition lines_are_image_as_stated : Prop :=
  forall (st : State) (calls : list call),
    fresh st ->
    Forall wellFormedCall calls ->
    forall line,
      In line (resourceLines (exec (performAll calls) st)) <->
      tracked (exec (performAll calls) st) line.

(** "deleted when the matching unprepare completes", and only then: the
    unprepare of another claim leaves the descriptor of a prepared claim
    in place. *)
Definition descriptor_per_claim_as_stated : Prop :=
  forall (st : State) (X Y : Claim) (data : string),
    Uid X <> Uid Y ->
    is_Some (podResources (drv st) !! Uid X) ->
    descriptorContent st = Some data ->
    descriptorContent (exec (NodeUnprepareResources [Y]) st) = Some data.

(** "preparing claim X with consumer label L results in a ResourceFile
    line [L (claim: X)]; unpreparing X removes exactly that line and no
    other", for every claim id and label. *)
Definition round_trip_as_stated : Prop :=
  forall (st st1 st2 : State) (claimUID podName : string),
    prepareResource claimUID podName st = (Ret None, st1) ->
    unprepareResource claimUID st1 = (Ret None, st2) ->
    In (formatLine podName claimUID) (resourceLines st1) /\
    resourceLines st2 =
      List.filter (fun line => negb (String.eqb line (formatLine podName claimUID)))
                  (resourceLines st1).

(** The same sentence read on the text of the file: the record, closed by
    a line feed, is in the content after the prepare and is not in it any
    more after the unprepare. *)
Definition holdsRecord (content record : string) : Prop :=
  exists before after, content = before +:+ record +:+ nl +:+ after.

Definition round_trip_of_text_as_stated : Prop :=
  forall (st st1 st2 : State) (claimUID podName : string),
    prepareResource claimUID podName st = (Ret None, st1) ->
    unprepareResource claimUID st1 = (Ret None, st2) ->
    (exists content, resourceContent st1 = Some content /\
                     holdsRecord content (formatLine podName claimUID)) /\
    (forall content, resourceContent st2 = Some content ->
                     ~ holdsRecord content (formatLine podName claimUID)).

(** "a read/write error on the resource file is surfaced as that claim's
    error and leaves DeviceRecord unchanged", for the read. *)
Definition read_errors_surface_as_stated : Prop :=
  forall (st st1 : State) (claimUID podName : string) (err : error),
    podResources (drv st) !! claimUID = Some podName ->
    os_ReadFile (resourceFilePath (drv st)) st = (Ret (Err err), st1) ->
    exists e st',
      unprepareResource claimUID st = (Ret (Some e), st') /\
      podResources (drv st') !! claimUID = Some podName.

(** "Any other creation failure ... is reported to the caller": a creation
    failure that is not "already exists" makes [PublishResources] return
    an error. *)
Definition create_failures_reported_as_stated : Prop :=
  forall (B : Type) (client : Publisher.ResourceSliceInterface B)
         (p : Publisher.ResourcePublisher) (b b1 : B) (err : error),
    Publisher.Create (Publisher.sliceOf p) b = (Err err, b1) ->
    IsAlreadyExists err = false ->
    exists e b', Publisher.PublishResources p b = (Some e, b').

(** * Further observations *)

(** The text of a file with the given line records: every record is
    closed by a line feed. *)
Definition fileOfLines (records : list string) : string :=
  match records with
  | [] => EmptyString
  | _ => strings_Join records nl +:+ nl
  end.

(** The claim ids of a request. *)
Definition claimUIDs (req : list Claim) : list string := List.map Uid req.


(** Both sample claims are prepared; the removal of the descriptor is
    going to fail. *)
Definition removeDenied : State :=
  mkState (drv bothPrepared) (mkWorld (files (world bothPrepared))
                                      [None; None; Some FaultEACCES]).

(** Two claims are tracked; the resource file holds their records among
    blank lines and a line nobody tracks, and no final line feed. *)
Definition untidyFile : State :=
  mkState
    (withPodResources sampleDriver
       (<["abc123" := "pod-using-claim-A"]> (<["def456" := "pod-using-claim-B"]> ∅)))
    (mkWorld
       (<["/etc/dra/file1" :=
            nl +:+ "pod-using-claim-A (claim: abc123)" +:+ nl +:+ nl
            +:+ "somebody else" +:+ nl
            +:+ "pod-using-claim-B (claim: def456)"]> ∅)
       []).

(** A claim whose uid and name hold no line feed. *)
Definition plainClaim (claim : Claim) : Prop :=
  singleLine (Uid claim) /\ singleLine (Name claim).

(** What the steps of a batch keep when nothing fails: the resource file
    exists while a claim is tracked, it holds nothing or the record of a
    tracked claim, and no failure is scheduled. *)
Definition settled (st : State) : Prop :=
  fileKept st /\ consistent st /\ noFaults st.

(** * Properties *)

(** ** Running the programs of the monad *)

Ltac run := unfold mbind, M_bind, mret, M_ret, nextFault, getDriver, getFiles,
  setFiles, setPodResources, goPanic in *; simpl in *.

Lemma os_WriteFile_run name data d fs fl :
  os_WriteFile name data (mkState d (mkWorld fs fl)) =
  match fl with
  | Some e :: rest =>
      (Ret (Some (PathError (writeOp e) name (fault_errno e))),
       mkState d (mkWorld (written e name data fs) rest))
  | _ => (Ret None, mkState d (mkWorld (<[name := data]> fs) (tail fl)))
  end.
Proof. destruct fl as [|[e|] rest]; reflexivity. Qed.

(** What a write that fails leaves: the other files as they are, and the
    file itself as it was or, once the open has truncated it, with the
    first bytes of the data. *)
Lemma written_other e name data fs path :
  path <> name -> written e name data fs !! path = fs !! path.
Proof.
  intros Hne. destruct e; cbn [written]; try reflexivity;
    apply lookup_insert_ne; congruence.
Qed.

Lemma substring_whole (b : string) : substring 0 (String.length b) b = b.
Proof. induction b as [|c b IH]; [reflexivity|]. cbn. rewrite IH. reflexivity. Qed.

Lemma written_at e name data fs :
  afterFailedWrite (fs !! name) data (written e name data fs !! name).
Proof.
  unfold afterFailedWrite. destruct e; cbn [written]; auto; right.
  - exists n. apply lookup_insert_eq.
  - exists (String.length data). rewrite substring_whole. apply lookup_insert_eq.
Qed.

Lemma written_keeps e name data fs :
  is_Some (fs !! name) -> is_Some (written e name data fs !! name).
Proof.
  intros Hs. destruct (written_at e name data fs) as [->|[n ->]]; eauto.
Qed.

Lemma written_at_open e name data fs :
  writeOp e = "open" -> written e name data fs = fs.
Proof. destruct e; cbn [writeOp written]; intros Hop; [auto..|discriminate|discriminate]. Qed.

Lemma os_ReadFile_run name d fs fl :
  os_ReadFile name (mkState d (mkWorld fs fl)) =
  match fl with
  | Some e :: rest =>
      (Ret (Err (PathError "open" name (fault_errno e))),
       mkState d (mkWorld fs rest))
  | _ => (Ret (match fs !! name with
               | Some data => Ok data
               | None => Err (PathError "open" name ENOENT)
               end), mkState d (mkWorld fs (tail fl)))
  end.
Proof.
  destruct fl as [|[e|] rest]; unfold os_ReadFile; run;
    try reflexivity; destruct (fs !! name); reflexivity.
Qed.

Lemma prepareResource_run claimUID podName d fs fl :
  prepareResource claimUID podName (mkState d (mkWorld fs fl)) =
  match fl with
  | Some e :: rest =>
      (Ret (Some (Errorf_w "failed to write resource file: "
                    (PathError (writeOp e) (resourceFilePath d) (fault_errno e)))),
       mkState d
         (mkWorld (written e (resourceFilePath d) (formatLine podName claimUID +:+ nl) fs)
                  rest))
  | _ =>
      (Ret None,
       mkState (withPodResources d (<[claimUID := podName]> (podResources d)))
         (mkWorld (<[resourceFilePath d := formatLine podName claimUID +:+ nl]> fs)
                  (tail fl)))
  end.
Proof. destruct fl as [|[e|] rest]; reflexivity. Qed.

(** ** Lines of a file *)

Lemma occurs_app c a b : occurs c (a +:+ b) = occurs c a || occurs c b.
Proof.
  induction a as [|x a IH]; simpl; [reflexivity|].
  rewrite IH. apply orb_assoc.
Qed.

Lemma singleLine_formatLine podName claimUID :
  singleLine (formatLine podName claimUID) <-> singleLine claimUID /\ singleLine podName.
Proof.
  unfold singleLine, formatLine. rewrite !occurs_app. simpl.
  rewrite orb_false_r.
  destruct (occurs newline podName), (occurs newline claimUID); simpl; intuition congruence.
Qed.

Lemma append_nonempty a c b : a +:+ String c b <> EmptyString.
Proof. destruct a; discriminate. Qed.

Lemma formatLine_nonempty podName claimUID :
  String.eqb (formatLine podName claimUID) EmptyString = false.
Proof.
  apply String.eqb_neq. unfold formatLine. apply append_nonempty.
Qed.

Lemma Split_app_sep x s :
  singleLine x ->
  strings_Split (x +:+ String newline s) newline = x :: strings_Split s newline.
Proof.
  unfold singleLine. induction x as [|c x IH]; simpl; intros Hx.
  - reflexivity.
  - apply orb_false_iff in Hx as [Hc Hx].
    rewrite Hc, (IH Hx). reflexivity.
Qed.

Lemma Split_singleLine x :
  singleLine x -> strings_Split x newline = [x].
Proof.
  unfold singleLine. induction x as [|c x IH]; simpl; intros Hx; [reflexivity|].
  apply orb_false_iff in Hx as [Hc Hx].
  rewrite Hc, (IH Hx). reflexivity.
Qed.

Lemma Split_fields_singleLine s : Forall singleLine (strings_Split s newline).
Proof.
  induction s as [|c s IH]; simpl.
  - constructor; [reflexivity|constructor].
  - destruct (Ascii.eqb c newline) eqn:Hc.
    + constructor; [reflexivity|exact IH].
    + destruct (strings_Split s newline) as [|h t]; [constructor; [|constructor]|].
      * unfold singleLine. simpl. rewrite Hc. reflexivity.
      * inversion IH; subst. constructor; [|assumption].
        unfold singleLine in *. simpl. rewrite Hc. assumption.
Qed.

Lemma Split_Join xs :
  xs <> [] -> Forall singleLine xs ->
  strings_Split (strings_Join xs nl) newline = xs.
Proof.
  induction xs as [|x rest IH]; [congruence|]. intros _ Hall.
  inversion Hall as [|? ? Hx Hrest]; subst.
  destruct rest as [|y rest].
  - simpl. apply Split_singleLine, Hx.
  - change (strings_Join (x :: y :: rest) nl)
      with (x +:+ String newline (strings_Join (y :: rest) nl)).
    rewrite Split_app_sep by exact Hx.
    rewrite IH; [reflexivity|discriminate|exact Hrest].
Qed.

Lemma lastByte_app a c b : lastByte (a +:+ String c b) = lastByte (String c b).
Proof.
  induction a as [|x a IH]; [reflexivity|].
  change (String x a +:+ String c b) with (String x (a +:+ String c b)).
  cbn [lastByte]. rewrite IH.
  destruct (a +:+ String c b) eqn:E; [|reflexivity].
  exfalso. eapply append_nonempty, E.
Qed.

Lemma lastByte_occurs s c : lastByte s = Some c -> occurs c s = true.
Proof.
  induction s as [|x s IH]; simpl; [discriminate|].
  destruct s as [|y s].
  - intros [= ->]. rewrite Ascii.eqb_refl. reflexivity.
  - intros Hl. rewrite (IH Hl). apply orb_true_r.
Qed.

Lemma HasSuffix_lastByte s c :
  strings_HasSuffix s (String c EmptyString) = true -> lastByte s = Some c.
Proof.
  unfold strings_HasSuffix. simpl String.length.
  induction s as [|x s IH]; simpl; [discriminate|].
  destruct s as [|y s].
  - simpl. destruct (Ascii.eqb_spec x c); [congruence|discriminate].
  - intros Hs. apply IH. simpl in *.
    rewrite Nat.sub_0_r. exact Hs.
Qed.

Lemma HasSuffix_singleLine s : singleLine s -> strings_HasSuffix s nl = false.
Proof.
  intros Hs. destruct (strings_HasSuffix s nl) eqn:E; [|reflexivity].
  apply HasSuffix_lastByte, lastByte_occurs in E.
  unfold singleLine in Hs. congruence.
Qed.

Lemma append_cons x (a b : string) : String x a +:+ b = String x (a +:+ b).
Proof. reflexivity. Qed.

Lemma append_assoc (a b c : string) : (a +:+ b) +:+ c = a +:+ (b +:+ c).
Proof.
  induction a as [|x a IH]; [reflexivity|].
  rewrite !append_cons. f_equal. exact IH.
Qed.

Lemma append_empty_r (a : string) : a +:+ EmptyString = a.
Proof.
  induction a as [|x a IH]; [reflexivity|].
  rewrite append_cons. f_equal. exact IH.
Qed.

Lemma Join_snoc xs y sep :
  xs <> [] -> strings_Join (xs ++ [y]) sep = strings_Join xs sep +:+ sep +:+ y.
Proof.
  induction xs as [|x rest IH]; [congruence|]. intros _.
  destruct rest as [|z rest]; [reflexivity|].
  change (strings_Join ((x :: z :: rest) ++ [y]) sep)
    with (x +:+ sep +:+ strings_Join ((z :: rest) ++ [y]) sep).
  rewrite IH by discriminate.
  change (strings_Join (x :: z :: rest) sep)
    with (x +:+ sep +:+ strings_Join (z :: rest) sep).
  rewrite !append_assoc. reflexivity.
Qed.

Lemma Join_nonempty x rest sep : nonEmpty x -> strings_Join (x :: rest) sep <> EmptyString.
Proof.
  intros Hx. destruct rest as [|y rest]; [exact Hx|].
  change (strings_Join (x :: y :: rest) sep)
    with (x +:+ sep +:+ strings_Join (y :: rest) sep).
  destruct x; [congruence|discriminate].
Qed.

Lemma lastByte_Join xs :
  xs <> [] -> Forall nonEmpty xs -> Forall singleLine xs ->
  lastByte (strings_Join xs nl) <> Some newline.
Proof.
  induction xs as [|x rest IH]; [congruence|]. intros _ Hne Hsl.
  inversion Hne as [|? ? Hx Hrest]; subst.
  inversion Hsl as [|? ? Hx' Hrest']; subst.
  destruct rest as [|y rest].
  - simpl. intros Hl. apply lastByte_occurs in Hl.
    unfold singleLine in Hx'. congruence.
  - change (strings_Join (x :: y :: rest) nl)
      with (x +:+ String newline (strings_Join (y :: rest) nl)).
    rewrite lastByte_app. cbn [lastByte].
    destruct (strings_Join (y :: rest) nl) eqn:E.
    + exfalso. inversion Hrest; subst. eapply Join_nonempty; eauto.
    + apply IH; [discriminate|assumption|assumption].
Qed.

Lemma filter_nonEmpty_id xs :
  Forall nonEmpty xs ->
  List.filter (fun line => negb (String.eqb line EmptyString)) xs = xs.
Proof.
  induction 1 as [|x xs Hx _ IH]; simpl; [reflexivity|].
  apply String.eqb_neq in Hx. rewrite Hx. simpl. rewrite IH. reflexivity.
Qed.

(** Joining line records and closing the last one gives back a file with
    these line records. *)
Lemma fileLines_Join xs :
  Forall nonEmpty xs -> Forall singleLine xs ->
  let newContent := strings_Join xs nl in
  fileLines (if negb (String.eqb newContent EmptyString)
                && negb (strings_HasSuffix newContent nl)
             then newContent +:+ nl else newContent) = xs.
Proof.
  intros Hne Hsl. destruct xs as [|x rest]; [reflexivity|]. cbv zeta.
  assert (Hj : String.eqb (strings_Join (x :: rest) nl) EmptyString = false).
  { apply String.eqb_neq. inversion Hne; subst. apply Join_nonempty. assumption. }
  assert (Hs : strings_HasSuffix (strings_Join (x :: rest) nl) nl = false).
  { destruct (strings_HasSuffix _ nl) eqn:E; [|reflexivity].
    apply HasSuffix_lastByte in E. exfalso. revert E.
    apply lastByte_Join; [discriminate|assumption|assumption]. }
  rewrite Hj, Hs. cbn [negb andb].
  replace (strings_Join (x :: rest) nl +:+ nl)
    with (strings_Join ((x :: rest) ++ [EmptyString]) nl).
  2:{ rewrite Join_snoc by discriminate. rewrite append_empty_r. reflexivity. }
  unfold fileLines. rewrite Split_Join.
  - rewrite List.filter_app, (filter_nonEmpty_id _ Hne).
    apply app_nil_r.
  - destruct rest; discriminate.
  - apply Forall_app. split; [assumption|].
    constructor; [reflexivity|constructor].
Qed.

(** The rewrite of [unprepareResource] removes the lines equal to the
    search pattern and no other line record. *)
Lemma fileLines_rewritten searchPattern data :
  fileLines (rewritten searchPattern data) =
  List.filter (fun line => negb (String.eqb line searchPattern)) (fileLines data).
Proof.
  unfold rewritten.
  set (kept := List.filter (keepLine searchPattern) (strings_Split data newline)).
  assert (Hk : kept = List.filter (fun line => negb (String.eqb line searchPattern))
                                  (fileLines data)).
  { unfold kept, fileLines, keepLine.
    induction (strings_Split data newline) as [|l ls IH]; simpl; [reflexivity|].
    destruct (String.eqb l EmptyString); simpl; [exact IH|].
    destruct (String.eqb l searchPattern); simpl; [exact IH|].
    rewrite IH. reflexivity. }
  rewrite <- Hk. apply fileLines_Join.
  - unfold kept. apply List.Forall_forall. intros l Hl.
    apply List.filter_In in Hl as [_ Hl]. unfold keepLine in Hl.
    apply andb_true_iff in Hl as [Hl _]. apply negb_true_iff, String.eqb_neq in Hl.
    exact Hl.
  - unfold kept. apply List.Forall_forall. intros l Hl.
    apply List.filter_In in Hl as [Hl _].
    pose proof (Split_fields_singleLine data) as Hall.
    rewrite List.Forall_forall in Hall. apply Hall. exact Hl.
Qed.

Lemma unprepareResource_run claimUID d fs fl :
  unprepareResource claimUID (mkState d (mkWorld fs fl)) =
  match podResources d !! claimUID with
  | None => (Ret None, mkState d (mkWorld fs fl))
  | Some podName =>
      let filePath := resourceFilePath d in
      match fl with
      | Some e :: rest =>
          (Ret (Some (Errorf_w "failed to read resource file: "
                        (PathError "open" filePath (fault_errno e)))),
           mkState d (mkWorld fs rest))
      | _ =>
          match fs !! filePath with
          | None => (Ret None, mkState d (mkWorld fs (tail fl)))
          | Some data =>
              match tail fl with
              | Some e :: rest =>
                  (Ret (Some (Errorf_w "failed to write resource file: "
                                (PathError (writeOp e) filePath (fault_errno e)))),
                   mkState d
                     (mkWorld (written e filePath
                                 (rewritten (formatLine podName claimUID) data) fs) rest))
              | _ =>
                  (Ret None,
                   mkState (withPodResources d (delete claimUID (podResources d)))
                     (mkWorld (<[filePath := rewritten (formatLine podName claimUID) data]> fs)
                              (tail (tail fl))))
              end
          end
      end
  end.
Proof.
  unfold unprepareResource.
  change (mbind ?f getDriver ?st) with (f (drv st) st).
  cbv beta. cbn [drv].
  destruct (podResources d !! claimUID) as [podName|]; [|reflexivity].
  unfold mbind at 1, M_bind at 1. rewrite os_ReadFile_run.
  destruct fl as [|[e|] rest].
  - cbn [tail]. destruct (fs !! resourceFilePath d) as [data|]; [|reflexivity].
    unfold mbind at 1, M_bind at 1. rewrite os_WriteFile_run. reflexivity.
  - destruct e; reflexivity.
  - cbn [tail]. destruct (fs !! resourceFilePath d) as [data|]; [|reflexivity].
    unfold mbind at 1, M_bind at 1. rewrite os_WriteFile_run.
    destruct rest as [|[e|] rest]; reflexivity.
Qed.

(** ** The critical sections *)

(** Neither critical section panics. *)
Lemma perform_returns c st : exists r st', perform c st = (Ret r, st').
Proof.
  destruct st as [d [fs fl]]. destruct c as [claimUID podName|claimUID]; simpl.
  - rewrite prepareResource_run. destruct fl as [|[e|] rest]; eauto.
  - rewrite unprepareResource_run.
    destruct (podResources d !! claimUID); [|eauto]. cbv zeta.
    destruct fl as [|[e|] rest]; cbn [tail]; eauto;
      destruct (fs !! resourceFilePath d); eauto.
    destruct rest as [|[e|] rest]; eauto.
Qed.

Lemma performAll_cons c cs st :
  performAll (c :: cs) st =
  match perform c st with
  | (Ret r, st1) =>
      match performAll cs st1 with
      | (Ret rs, st2) => (Ret (r :: rs), st2)
      | (Panic p, st2) => (Panic p, st2)
      end
  | (Panic p, st1) => (Panic p, st1)
  end.
Proof.
  cbn [performAll]. unfold mbind, M_bind, mret, M_ret.
  destruct (perform c st) as [[r|p] st1]; [|reflexivity].
  destruct (performAll cs st1) as [[rs|p] st2]; reflexivity.
Qed.

Lemma performAll_returns cs st : exists rs st', performAll cs st = (Ret rs, st').
Proof.
  revert st. induction cs as [|c cs IH]; intros st; [eexists _, _; reflexivity|].
  rewrite performAll_cons.
  destruct (perform_returns c st) as (r & st1 & ->).
  destruct (IH st1) as (rs & st2 & ->). eauto.
Qed.

Lemma performAll_app cs1 cs2 st rs st' :
  performAll (cs1 ++ cs2) st = (Ret rs, st') ->
  exists rs1 st1 rs2,
    performAll cs1 st = (Ret rs1, st1) /\
    performAll cs2 st1 = (Ret rs2, st') /\
    rs = rs1 ++ rs2.
Proof.
  revert st rs. induction cs1 as [|c cs1 IH]; intros st rs Hrun.
  - exists [], st, rs. auto.
  - rewrite <- app_comm_cons, performAll_cons in Hrun.
    rewrite performAll_cons.
    destruct (perform c st) as [[r|p] st1]; [|discriminate].
    destruct (performAll (cs1 ++ cs2) st1) as [[rs'|p] st2] eqn:E; [|discriminate].
    injection Hrun as <- <-.
    destruct (IH _ _ E) as (rs1 & st1' & rs2 & -> & H2 & ->).
    exists (r :: rs1), st1', rs2. auto.
Qed.

(** A prepare that succeeds leaves the file with its record alone. *)
Lemma prepareResource_overwrites claimUID podName st st' :
  prepareResource claimUID podName st = (Ret None, st') ->
  resourceContent st' = Some (formatLine podName claimUID +:+ nl) /\
  podResources (drv st') = <[claimUID := podName]> (podResources (drv st)).
Proof.
  destruct st as [d [fs fl]]. rewrite prepareResource_run.
  destruct fl as [|[e|] rest]; intros [= <-]; split; try reflexivity;
    unfold resourceContent; cbn; apply lookup_insert_eq.
Qed.

Lemma fileLines_single line :
  singleLine line -> nonEmpty line -> fileLines (line +:+ nl) = [line].
Proof.
  intros Hs Hn. unfold fileLines, nl. rewrite Split_app_sep by exact Hs.
  cbn. apply String.eqb_neq in Hn. rewrite Hn. reflexivity.
Qed.

Lemma noFaults_cases st :
  noFaults st ->
  faults (world st) = [] \/
  exists rest, faults (world st) = None :: rest /\ Forall (eq None) rest.
Proof.
  unfold noFaults. destruct (faults (world st)) as [|f rest]; [auto|].
  intros Hall. inversion Hall; subst. right. eauto.
Qed.

Lemma unprepareResource_noFaults claimUID st :
  noFaults st ->
  exists st', unprepareResource claimUID st = (Ret None, st') /\ noFaults st'.
Proof.
  destruct st as [d [fs fl]]. intros Hnf. rewrite unprepareResource_run.
  destruct (podResources d !! claimUID); [|eauto]. cbv zeta.
  apply noFaults_cases in Hnf as [Hfl|(rest & Hfl & Hrest)];
    cbn [world faults] in Hfl; subst fl; cbn [tail].
  - destruct (fs !! resourceFilePath d); eexists; (split; [reflexivity|]);
      unfold noFaults; cbn [world faults]; auto.
  - destruct (fs !! resourceFilePath d).
    + destruct rest as [|f rest]; [|inversion Hrest; subst]; cbn [tail];
        eexists; (split; [reflexivity|]); unfold noFaults; cbn [world faults]; auto.
    + eexists; (split; [reflexivity|]); unfold noFaults; cbn [world faults]; auto.
Qed.

Lemma prepareResource_noFaults claimUID podName st :
  noFaults st ->
  exists st', prepareResource claimUID podName st = (Ret None, st') /\ noFaults st'.
Proof.
  destruct st as [d [fs fl]]. intros Hnf. rewrite prepareResource_run.
  apply noFaults_cases in Hnf as [Hfl|(rest & Hfl & Hrest)];
    cbn [world faults] in Hfl; subst fl; cbn [tail];
    eexists; (split; [reflexivity|]); unfold noFaults; cbn [world faults]; auto.
Qed.

(** With no failure scheduled every call returns [nil]. *)
Lemma performAll_noFaults cs st :
  noFaults st ->
  exists st',
    performAll cs st = (Ret (List.map (fun _ => None) cs), st') /\ noFaults st'.
Proof.
  revert st. induction cs as [|c cs IH]; intros st Hnf; [exists st; auto|].
  rewrite performAll_cons.
  assert (Hc : exists st1, perform c st = (Ret None, st1) /\ noFaults st1).
  { destruct c; [apply prepareResource_noFaults|apply unprepareResource_noFaults];
      exact Hnf. }
  destruct Hc as (st1 & -> & Hnf1).
  destruct (IH st1 Hnf1) as (st' & -> & Hnf'). eauto.
Qed.

(** ** What a prepare leaves in the resource file *)

(** C1, as the code has it.  A prepare call does not read the resource
    file: it overwrites it with the single record of its claim id and
    consumer label.  So after any run of calls of the handler that ends in
    a successful prepare, in whatever order the earlier calls took the
    lock, the file is exactly the record of that last prepare, followed by
    a line feed: when the claim id and the label hold no line feed that is
    one line, not one line per prepared claim.  And with no failure
    scheduled every call of a run succeeds. *)
Theorem prepare_overwrites_file :
  (forall (calls : list call) (claimUID podName : string) (st st' : State)
          (rs : list (option error)),
      performAll (calls ++ [Prepare claimUID podName]) st = (Ret rs, st') ->
      last rs = Some None ->
      resourceContent st' = Some (formatLine podName claimUID +:+ nl) /\
      podResources (drv st') !! claimUID = Some podName /\
      (singleLine claimUID -> singleLine podName ->
       resourceLines st' = [formatLine podName claimUID])) /\
  (forall (calls : list call) (st : State),
      noFaults st ->
      exists st',
        performAll calls st = (Ret (List.map (fun _ => None) calls), st')).
Proof.
  split.
  - intros calls claimUID podName st st' rs Hrun Hlast.
    apply performAll_app in Hrun as (rs1 & st1 & rs2 & _ & Hrun & ->).
    rewrite performAll_cons in Hrun. cbn [perform performAll] in Hrun.
    destruct (prepareResource claimUID podName st1) as [[r|p] st2] eqn:E;
      [|discriminate].
    unfold mret, M_ret in Hrun. injection Hrun as <- <-.
    rewrite last_snoc in Hlast. injection Hlast as ->.
    apply prepareResource_overwrites in E as [Hfile Hpods].
    split; [exact Hfile|]. split.
    + rewrite Hpods. apply lookup_insert_eq.
    + intros Huid Hpod. unfold resourceLines. rewrite Hfile.
      apply fileLines_single.
      * apply singleLine_formatLine. auto.
      * apply String.eqb_neq, formatLine_nonempty.
  - intros calls st Hnf.
    destruct (performAll_noFaults calls st Hnf) as (st' & Hrun & _). eauto.
Qed.

Lemma prepare_overwrites_file_witness :
  resourceContent
    (exec (performAll [Prepare "abc123" "pod-using-claim-A";
                       Prepare "def456" "pod-using-claim-B"]) sampleState)
  = Some ("pod-using-claim-B (claim: def456)" +:+ nl) /\
  resourceLines
    (exec (performAll [Prepare "abc123" "pod-using-claim-A";
                       Prepare "def456" "pod-using-claim-B"]) sampleState)
  = ["pod-using-claim-B (claim: def456)"].
Proof.
  destruct (proj1 prepare_overwrites_file
              [Prepare "abc123" "pod-using-claim-A"] "def456" "pod-using-claim-B"
              sampleState
              (exec (performAll [Prepare "abc123" "pod-using-claim-A";
                                 Prepare "def456" "pod-using-claim-B"]) sampleState)
              [None; None])
    as (Hfile & _ & Hlines).
  - vm_compute. reflexivity.
  - reflexivity.
  - split; [exact Hfile|]. apply Hlines; reflexivity.
Defined.

(** C1, as the specification states it, fails: two prepares for two claim
    ids leave one line. *)
Lemma prepare_appends_counterexample : ~ prepare_appends_as_stated.
Proof.
  intros Hspec.
  specialize (Hspec sampleState
                [("abc123", "pod-using-claim-A"); ("def456", "pod-using-claim-B")]).
  assert (Hlen : 1 = 2); [|discriminate Hlen].
  apply Hspec.
  - apply (bool_decide_unpack _). vm_compute. reflexivity.
  - split; reflexivity.
  - vm_compute. reflexivity.
Qed.

(** ** The lines of the resource file and the tracked claims *)

Lemma rewritten_single searchPattern line :
  singleLine line -> nonEmpty line ->
  rewritten searchPattern (line +:+ nl) =
  if String.eqb line searchPattern then EmptyString else line +:+ nl.
Proof.
  intros Hs Hn. unfold rewritten.
  assert (Hsplit : strings_Split (line +:+ nl) newline = [line; EmptyString])
    by (apply (Split_app_sep line EmptyString Hs)).
  rewrite Hsplit. cbn [List.filter]. unfold keepLine.
  apply String.eqb_neq in Hn. rewrite Hn. cbn [negb andb String.eqb].
  destruct (String.eqb line searchPattern); cbn [negb strings_Join]; [reflexivity|].
  rewrite Hn, (HasSuffix_singleLine _ Hs). reflexivity.
Qed.

Lemma Forall_tail {A} (P : A -> Prop) (l : list A) : Forall P l -> Forall P (tail l).
Proof. destruct 1; [constructor|assumption]. Qed.

(** A call consumes entries of the schedule from its head. *)
Lemma perform_schedule (P : option fault -> Prop) c st r st' :
  Forall P (faults (world st)) ->
  perform c st = (Ret r, st') ->
  Forall P (faults (world st')).
Proof.
  destruct st as [d [fs fl]]. cbn [world faults]. intros HP.
  pose proof (Forall_tail P fl HP) as HP1.
  pose proof (Forall_tail P _ HP1) as HP2.
  destruct c as [claimUID podName|claimUID]; cbn [perform].
  - rewrite prepareResource_run.
    destruct fl as [|[e|] rest]; intros [= <- <-]; assumption.
  - rewrite unprepareResource_run.
    destruct (podResources d !! claimUID); [|intros [= <- <-]; exact HP].
    cbv zeta. destruct fl as [|[e|] rest]; cbn [tail] in *;
      try (intros [= <- <-]; assumption);
      (destruct (fs !! resourceFilePath d); [|intros [= <- <-]; assumption]);
      try (intros [= <- <-]; assumption).
    destruct rest as [|[e|] rest]; cbn [tail] in *; intros [= <- <-]; assumption.
Qed.

Lemma wholeWrites_head d fs e rest :
  wholeWrites (mkState d (mkWorld fs (Some e :: rest))) -> writeOp e = "open".
Proof.
  unfold wholeWrites. cbn [world faults]. intros Hall.
  inversion Hall as [|? ? He _]; subst. apply He. reflexivity.
Qed.

Lemma noFaults_wholeWrites st : noFaults st -> wholeWrites st.
Proof.
  unfold noFaults, wholeWrites. intros Hnf.
  eapply List.Forall_impl; [|exact Hnf].
  intros f <- e He. discriminate He.
Qed.

Lemma perform_consistent c st r st' :
  wholeWrites st ->
  wellFormedCall c -> consistent st ->
  perform c st = (Ret r, st') -> consistent st'.
Proof.
  destruct st as [d [fs fl]]. intros Hwhole.
  unfold consistent, resourceContent. cbn [drv world files].
  destruct c as [claimUID podName|claimUID]; cbn [perform wellFormedCall].
  - intros Hwf Hinv. rewrite prepareResource_run.
    assert (Hok : consistent
              (mkState (withPodResources d (<[claimUID := podName]> (podResources d)))
                 (mkWorld (<[resourceFilePath d := formatLine podName claimUID +:+ nl]> fs)
                    (tail fl)))).
    { unfold consistent, resourceContent. cbn [drv world files podResources withPodResources].
      change (resourceFilePath (withPodResources d _)) with (resourceFilePath d).
      rewrite lookup_insert_eq. right. exists claimUID, podName.
      rewrite lookup_insert_eq. split; [reflexivity|]. split; [|reflexivity].
      apply singleLine_formatLine. exact Hwf. }
    destruct fl as [|[e|] rest]; intros [= <- <-]; try exact Hok.
    rewrite written_at_open by (eapply wholeWrites_head; exact Hwhole). exact Hinv.
  - intros _ Hinv. rewrite unprepareResource_run.
    destruct (podResources d !! claimUID) as [podName|] eqn:Hpod;
      [|intros [= <- <-]; exact Hinv].
    cbv zeta.
    assert (Hok : forall data fl', fs !! resourceFilePath d = Some data ->
              consistent
                (mkState (withPodResources d (delete claimUID (podResources d)))
                   (mkWorld (<[resourceFilePath d :=
                                 rewritten (formatLine podName claimUID) data]> fs) fl'))).
    { intros data fl' Hdata. rewrite Hdata in Hinv.
      unfold consistent, resourceContent. cbn [drv world files podResources withPodResources].
      change (resourceFilePath (withPodResources d _)) with (resourceFilePath d).
      rewrite lookup_insert_eq.
      destruct Hinv as [->|(uid' & pod' & Hl & Hs & ->)]; [left; reflexivity|].
      rewrite rewritten_single;
        [|exact Hs|apply String.eqb_neq, formatLine_nonempty].
      destruct (String.eqb_spec (formatLine pod' uid') (formatLine podName claimUID))
        as [Heq|Hne]; [left; reflexivity|].
      right. exists uid', pod'. split; [|split; [exact Hs|reflexivity]].
      rewrite lookup_delete_ne; [exact Hl|].
      intros <-. apply Hne. congruence. }
    destruct fl as [|[e|] rest]; cbn [tail].
    + destruct (fs !! resourceFilePath d) as [data|] eqn:Hdata;
        intros [= <- <-]; [apply Hok; reflexivity|].
      unfold consistent, resourceContent. cbn [drv world files]. rewrite Hdata. exact I.
    + intros [= <- <-]. exact Hinv.
    + destruct (fs !! resourceFilePath d) as [data|] eqn:Hdata.
      * destruct rest as [|[e|] rest]; intros [= <- <-];
          try (apply Hok; reflexivity).
        rewrite written_at_open.
        -- unfold consistent, resourceContent. cbn [drv world files].
           rewrite Hdata. exact Hinv.
        -- apply (wholeWrites_head d fs e rest). unfold wholeWrites in *.
           cbn [world faults] in *. inversion Hwhole; assumption.
      * intros [= <- <-]. unfold consistent, resourceContent.
        cbn [drv world files podResources withPodResources].
        rewrite Hdata. exact I.
Qed.

Lemma performAll_consistent cs st rs st' :
  wholeWrites st ->
  Forall wellFormedCall cs -> consistent st ->
  performAll cs st = (Ret rs, st') -> consistent st'.
Proof.
  intros Hwhole Hwf. revert st rs Hwhole.
  induction Hwf as [|c cs Hc _ IH]; intros st rs Hwhole Hinv.
  - intros [= <- <-]. exact Hinv.
  - rewrite performAll_cons.
    destruct (perform c st) as [[r|p] st1] eqn:E1; [|discriminate].
    destruct (performAll cs st1) as [[rs'|p] st2] eqn:E2; [|discriminate].
    intros [= <- <-]. eapply IH; [| |exact E2].
    + eapply perform_schedule; [exact Hwhole|exact E1].
    + eapply perform_consistent; eauto.
Qed.

Lemma fresh_consistent st : fresh st -> consistent st.
Proof. intros [_ Hf]. unfold consistent. rewrite Hf. exact I. Qed.

Lemma consistent_lines st :
  consistent st ->
  (forall line, In line (resourceLines st) -> tracked st line) /\
  length (resourceLines st) <= 1.
Proof.
  unfold consistent, resourceLines, tracked.
  destruct (resourceContent st) as [content|]; [|cbn; intuition lia].
  intros [->|(uid & pod & Hl & Hs & ->)]; [cbn; intuition lia|].
  rewrite fileLines_single;
    [|exact Hs|apply String.eqb_neq, formatLine_nonempty].
  split; [|cbn; lia].
  intros line [<-|[]]. eauto.
Qed.

(** C2, as the code has it.  From a fresh driver on a node without
    resource file, after every run of prepare and unprepare calls whose
    claim ids and labels hold no line feed, and in which no write is cut
    short (a write that fails fails when it opens the file, and so leaves
    the file as it was; reads may fail in any way), every line of the
    resource file is the record of an entry of DeviceRecord, and the file
    holds at most one line, so no claim id occurs twice in it.  The
    entries of DeviceRecord need not all have a line: a prepare overwrites
    the file. *)
Theorem lines_within_image :
  forall (st : State) (calls : list call),
    fresh st ->
    wholeWrites st ->
    Forall wellFormedCall calls ->
    (forall line,
        In line (resourceLines (exec (performAll calls) st)) ->
        tracked (exec (performAll calls) st) line) /\
    length (resourceLines (exec (performAll calls) st)) <= 1.
Proof.
  intros st calls Hfresh Hwhole Hwf.
  destruct (performAll_returns calls st) as (rs & st' & Hrun).
  unfold exec. rewrite Hrun. cbn [snd].
  apply consistent_lines.
  eapply performAll_consistent; [exact Hwhole|exact Hwf| |exact Hrun].
  apply fresh_consistent, Hfresh.
Qed.

Lemma lines_within_image_witness :
  tracked
    (exec (performAll [Prepare "abc123" "pod-using-claim-A";
                       Prepare "def456" "pod-using-claim-B";
                       Unprepare "abc123"]) sampleState)
    "pod-using-claim-B (claim: def456)".
Proof.
  refine (proj1 (lines_within_image sampleState
                   [Prepare "abc123" "pod-using-claim-A";
                    Prepare "def456" "pod-using-claim-B";
                    Unprepare "abc123"] _ _ _) _ _).
  - split; reflexivity.
  - constructor.
  - repeat constructor.
  - vm_compute. left. reflexivity.
Defined.

(** The condition on the writes is needed: a prepare whose write is cut
    short after ten bytes returns an error and leaves the file with a
    line that is the record of no entry of DeviceRecord. *)
Remark cut_short_write_leaves_foreign_line :
  let st := mkState sampleDriver (mkWorld ∅ [Some (FaultShortWrite 10)]) in
  fresh st /\
  fst (prepareResource "abc123" "pod-using-claim-A" st)
  = Ret (Some (Errorf_w "failed to write resource file: "
                 (PathError "write" "/etc/dra/file1" ENOSPC))) /\
  podResources (drv (exec (prepareResource "abc123" "pod-using-claim-A") st)) = ∅ /\
  resourceLines (exec (prepareResource "abc123" "pod-using-claim-A") st) = ["pod-using-"].
Proof. cbv zeta. repeat split; vm_compute; reflexivity. Qed.

(** C2, as the specification states it, fails: after two prepares the
    first claim is in DeviceRecord and its record is not in the file. *)
Lemma lines_are_image_counterexample : ~ lines_are_image_as_stated.
Proof.
  intros Hspec.
  specialize (Hspec sampleState
                [Prepare "abc123" "pod-using-claim-A";
                 Prepare "def456" "pod-using-claim-B"]).
  destruct (Hspec (conj eq_refl eq_refl)
              ltac:(repeat constructor)
              "pod-using-claim-A (claim: abc123)") as [_ Hin].
  assert (Hl : In "pod-using-claim-A (claim: abc123)"
                 ["pod-using-claim-B (claim: def456)"]).
  { apply Hin. exists "abc123", "pod-using-claim-A".
    split; vm_compute; reflexivity. }
  destruct Hl as [Hl|[]]. discriminate Hl.
Qed.

(** ** Unprepare *)

(** A successful unprepare either finds the claim untracked, or finds no
    resource file and keeps the claim, or rewrites the file and forgets
    the claim. *)
Lemma unprepareResource_success claimUID st st' :
  unprepareResource claimUID st = (Ret None, st') ->
  podResources (drv st) !! claimUID = None /\ st' = st
  \/ (exists podName, podResources (drv st) !! claimUID = Some podName) /\
     resourceContent st = None /\
     drv st' = drv st /\ files (world st') = files (world st)
  \/ (exists podName data,
        podResources (drv st) !! claimUID = Some podName /\
        resourceContent st = Some data /\
        resourceContent st' = Some (rewritten (formatLine podName claimUID) data)) /\
     podResources (drv st') = delete claimUID (podResources (drv st)).
Proof.
  destruct st as [d [fs fl]]. rewrite unprepareResource_run.
  unfold resourceContent at 1. cbn [drv world files].
  destruct (podResources d !! claimUID) as [podName|] eqn:Hpod;
    [|intros [= <-]; left; auto].
  cbv zeta. intros Hrun. right.
  assert (Hrm : forall data fl',
    fs !! resourceFilePath d = Some data ->
    st' = mkState (withPodResources d (delete claimUID (podResources d)))
            (mkWorld (<[resourceFilePath d :=
                          rewritten (formatLine podName claimUID) data]> fs) fl') ->
    (exists podName0 data0,
        Some podName = Some podName0 /\
        resourceContent (mkState d (mkWorld fs fl)) = Some data0 /\
        resourceContent st' = Some (rewritten (formatLine podName0 claimUID) data0)) /\
    podResources (drv st') = delete claimUID (podResources d)).
  { intros data fl' Hdata ->. split; [|reflexivity].
    exists podName, data. split; [reflexivity|]. split; [exact Hdata|].
    unfold resourceContent. cbn [drv world files].
    change (resourceFilePath (withPodResources d _)) with (resourceFilePath d).
    apply lookup_insert_eq. }
  destruct fl as [|[e|] rest]; cbn [tail] in Hrun.
  - destruct (fs !! resourceFilePath d) as [data|] eqn:Hdata;
      injection Hrun as <-; [right; eapply Hrm; eauto|left; eauto].
  - discriminate.
  - destruct (fs !! resourceFilePath d) as [data|] eqn:Hdata.
    + destruct rest as [|[e|] rest]; [| discriminate |];
        injection Hrun as <-; right; eapply Hrm; eauto.
    + injection Hrun as <-. left; eauto.
Qed.

(** C3, at the input on which the code breaks it.  The claim is tracked
    and the resource file is missing: [unprepareResource] returns [nil],
    so the unprepare has completed with success, and the claim id is
    still in DeviceRecord. *)
Theorem unprepare_missing_file_keeps_claim :
  podResources (drv preparedThenFileRemoved) !! "abc123" = Some "pod-using-claim-A" /\
  resourceContent preparedThenFileRemoved = None /\
  unprepareResource "abc123" preparedThenFileRemoved = (Ret None, preparedThenFileRemoved) /\
  podResources (drv (exec (unprepareResource "abc123") preparedThenFileRemoved)) !! "abc123"
    = Some "pod-using-claim-A".
Proof. repeat split; vm_compute; reflexivity. Qed.

(** An unprepare that returns an error has not changed DeviceRecord, nor
    any file but the resource file; the resource file is as it was, or,
    when the rewrite failed after its open, cut short. *)
Lemma unprepare_error_parts st claimUID podName :
  podResources (drv st) !! claimUID = Some podName ->
  forall e st',
    unprepareResource claimUID st = (Ret (Some e), st') ->
    podResources (drv st') !! claimUID = Some podName /\
    drv st' = drv st /\
    (forall path, path <> resourceFilePath (drv st) ->
                  files (world st') !! path = files (world st) !! path) /\
    (resourceContent st' = resourceContent st \/
     exists data,
       resourceContent st = Some data /\
       afterFailedWrite (Some data) (rewritten (formatLine podName claimUID) data)
                        (resourceContent st')).
Proof.
  destruct st as [d [fs fl]]. unfold resourceContent. cbn [drv world files].
  intros Hpod e st'.
  rewrite unprepareResource_run, Hpod. cbv zeta.
  destruct fl as [|[e0|] rest]; cbn [tail].
  - destruct (fs !! resourceFilePath d); discriminate.
  - intros [= _ <-]. auto.
  - destruct (fs !! resourceFilePath d) as [data|] eqn:Hdata; [|discriminate].
    destruct rest as [|[e0|] rest]; [discriminate| |discriminate].
    intros [= _ <-]. cbn [drv world files].
    split; [exact Hpod|]. split; [reflexivity|]. split.
    + intros path Hne. apply written_other, Hne.
    + right. exists data. split; [reflexivity|].
      rewrite <- Hdata. apply written_at.
Qed.

Lemma afterFailedWrite_keeps old data new :
  afterFailedWrite old data new -> is_Some old -> is_Some new.
Proof. intros [->|[n ->]]; eauto. Qed.

Lemma unprepare_error_keeps_file st claimUID e st' :
  unprepareResource claimUID st = (Ret (Some e), st') ->
  drv st' = drv st /\
  (is_Some (resourceContent st) -> is_Some (resourceContent st')).
Proof.
  intros Hrun.
  destruct (podResources (drv st) !! claimUID) as [podName|] eqn:Hpod.
  - destruct (unprepare_error_parts st claimUID podName Hpod e st' Hrun)
      as (_ & Hdrv & _ & [->|(data & Hdata & Hleft)]); [auto|].
    split; [exact Hdrv|]. intros _.
    eapply afterFailedWrite_keeps; [exact Hleft|eauto].
  - destruct st as [d [fs fl]]. rewrite unprepareResource_run in Hrun.
    cbn [drv] in Hpod. rewrite Hpod in Hrun. discriminate Hrun.
Qed.

(** What a call does to DeviceRecord while the resource file is kept. *)
Lemma perform_tracks c st r st' claimUID :
  fileKept st ->
  perform c st = (Ret r, st') ->
  fileKept st' /\
  (is_Some (podResources (drv st') !! claimUID) <->
   trackedAfter claimUID
     (bool_decide (is_Some (podResources (drv st) !! claimUID))) (c, r) = true).
Proof.
  intros Hkept. destruct c as [uid podName|uid]; cbn [perform trackedAfter].
  - destruct st as [d [fs fl]]. rewrite prepareResource_run.
    assert (Hok : fileKept
              (mkState (withPodResources d (<[uid := podName]> (podResources d)))
                 (mkWorld (<[resourceFilePath d := formatLine podName uid +:+ nl]> fs)
                    (tail fl)))).
    { intros u _. unfold resourceContent. cbn [drv world files].
      change (resourceFilePath (withPodResources d _)) with (resourceFilePath d).
      rewrite lookup_insert_eq. eauto. }
    assert (Hset : is_Some (<[uid := podName]> (podResources d) !! claimUID) <->
                   (if String.eqb uid claimUID then true
                    else bool_decide (is_Some (podResources d !! claimUID))) = true).
    { destruct (String.eqb_spec uid claimUID) as [->|Hne].
      - rewrite lookup_insert_eq. split; eauto.
      - rewrite lookup_insert_ne by exact Hne. rewrite bool_decide_eq_true. reflexivity. }
    destruct fl as [|[e|] rest]; intros [= <- <-]; cbn [drv podResources withPodResources];
      try (split; [exact Hok|exact Hset]).
    split; [|cbn [drv]; rewrite bool_decide_eq_true; reflexivity].
    intros u Hu. unfold resourceContent. cbn [drv world files].
    apply written_keeps. apply (Hkept u Hu).
  - intros Hrun. destruct r as [e|].
    + destruct (unprepare_error_keeps_file st uid e st' Hrun) as [Hdrv Hfile].
      split.
      * intros u Hu. apply Hfile. apply (Hkept u). rewrite <- Hdrv. exact Hu.
      * rewrite Hdrv, bool_decide_eq_true. reflexivity.
    + apply unprepareResource_success in Hrun
        as [[Hno ->]|[((podName & Hpod) & Hmiss & _)
                     |[(podName & data & Hpod & Hdata & Hnew) Hdel]]].
      * split; [exact Hkept|].
        destruct (String.eqb_spec uid claimUID) as [<-|Hne].
        -- rewrite Hno. split; [intros [x Hx]|]; discriminate.
        -- rewrite bool_decide_eq_true. reflexivity.
      * exfalso. destruct (Hkept uid) as [x Hx]; [eauto|]. congruence.
      * split; [intros u _; rewrite Hnew; eauto|].
        rewrite Hdel. destruct (String.eqb_spec uid claimUID) as [<-|Hne].
        -- rewrite lookup_delete_eq. split; [intros [x Hx]|]; discriminate.
        -- rewrite lookup_delete_ne by exact Hne.
           rewrite bool_decide_eq_true. reflexivity.
Qed.

(** Runs that nobody disturbs.  In a run of the handler from a driver
    that tracks no claim yet, where nobody else removes the resource
    file, a claim id is in DeviceRecord exactly when a prepare for it has
    returned [nil] and no unprepare for it has returned [nil] since. *)
Theorem device_record_tracks_history :
  forall (st st' : State) (calls : list call) (rs : list (option error))
         (claimUID : string),
    podResources (drv st) = ∅ ->
    performAll calls st = (Ret rs, st') ->
    (is_Some (podResources (drv st') !! claimUID) <->
     trackedByHistory claimUID calls rs = true).
Proof.
  intros st st' calls rs claimUID Hempty Hrun. unfold trackedByHistory.
  assert (Hkept : fileKept st).
  { intros u. rewrite Hempty, lookup_empty. intros [x Hx]. discriminate. }
  assert (Hstart : false = bool_decide (is_Some (podResources (drv st) !! claimUID))).
  { symmetry. apply bool_decide_eq_false. rewrite Hempty, lookup_empty.
    intros [x Hx]. discriminate. }
  rewrite Hstart. clear Hstart Hempty.
  revert st rs Hkept Hrun. induction calls as [|c calls IH]; intros st rs Hkept Hrun.
  - injection Hrun as <- <-. cbn. rewrite bool_decide_eq_true. reflexivity.
  - rewrite performAll_cons in Hrun.
    destruct (perform c st) as [[r|p] st1] eqn:E1; [|discriminate].
    destruct (performAll calls st1) as [[rs'|p] st2] eqn:E2; [|discriminate].
    injection Hrun as <- <-. cbn [combine fold_left].
    destruct (perform_tracks c st r st1 claimUID Hkept E1) as [Hkept1 Hstep].
    rewrite (IH st1 rs' Hkept1 E2).
    destruct (trackedAfter claimUID _ (c, r)) eqn:Hafter.
    + assert (Hb : bool_decide (is_Some (podResources (drv st1) !! claimUID)) = true)
        by (apply bool_decide_eq_true, Hstep; reflexivity).
      rewrite Hb. reflexivity.
    + assert (Hb : bool_decide (is_Some (podResources (drv st1) !! claimUID)) = false).
      { apply bool_decide_eq_false. intros Hs. apply Hstep in Hs. discriminate. }
      rewrite Hb. reflexivity.
Qed.

Lemma device_record_tracks_history_witness :
  let calls := [Prepare "abc123" "pod-using-claim-A";
                Prepare "def456" "pod-using-claim-B";
                Unprepare "abc123"] in
  is_Some (podResources (drv (exec (performAll calls) sampleState)) !! "def456") /\
  ~ is_Some (podResources (drv (exec (performAll calls) sampleState)) !! "abc123").
Proof.
  cbv zeta. split.
  - apply (device_record_tracks_history sampleState _
             [Prepare "abc123" "pod-using-claim-A";
              Prepare "def456" "pod-using-claim-B";
              Unprepare "abc123"] [None; None; None] "def456").
    + reflexivity.
    + vm_compute. reflexivity.
    + reflexivity.
  - intros Hs.
    apply (device_record_tracks_history sampleState _
             [Prepare "abc123" "pod-using-claim-A";
              Prepare "def456" "pod-using-claim-B";
              Unprepare "abc123"] [None; None; None] "abc123") in Hs.
    + discriminate Hs.
    + reflexivity.
    + vm_compute. reflexivity.
Defined.

(** C6.  An unprepare for a claim id that DeviceRecord does not hold
    returns [nil] and changes nothing, whatever the failures scheduled.
    So after an unprepare that returned [nil], a second unprepare for the
    same claim id, whose read is not made to fail, returns [nil] too and
    leaves DeviceRecord and the files as the first one left them; and
    when no failure is scheduled at all, two unprepares in a row for any
    claim id both return [nil]. *)
Theorem unprepare_idempotent :
  forall (st : State) (claimUID : string),
    (podResources (drv st) !! claimUID = None ->
     unprepareResource claimUID st = (Ret None, st)) /\
    (forall st1,
        unprepareResource claimUID st = (Ret None, st1) ->
        readGoesThrough st1 ->
        exists st2,
          unprepareResource claimUID st1 = (Ret None, st2) /\
          drv st2 = drv st1 /\
          files (world st2) = files (world st1)) /\
    (noFaults st ->
     exists st1 st2,
       unprepareResource claimUID st = (Ret None, st1) /\
       unprepareResource claimUID st1 = (Ret None, st2) /\
       drv st2 = drv st1 /\
       files (world st2) = files (world st1)).
Proof.
  intros st claimUID.
  assert (Habsent : forall st0, podResources (drv st0) !! claimUID = None ->
                      unprepareResource claimUID st0 = (Ret None, st0)).
  { intros [d [fs fl]] Hpod. rewrite unprepareResource_run. cbn [drv] in Hpod.
    rewrite Hpod. reflexivity. }
  assert (Hsecond : forall st1,
    unprepareResource claimUID st = (Ret None, st1) ->
    readGoesThrough st1 ->
    exists st2,
      unprepareResource claimUID st1 = (Ret None, st2) /\
      drv st2 = drv st1 /\ files (world st2) = files (world st1)).
  { intros st1 Hfirst Hread.
    apply unprepareResource_success in Hfirst
      as [[Hno ->]|[((podName & Hpod) & Hmiss & Hdrv & Hfiles)|[_ Hdel]]].
    - exists st. auto.
    - destruct st1 as [d1 [fs1 fl1]]. cbn [drv world files] in *.
      rewrite unprepareResource_run. rewrite Hdrv, Hpod. cbv zeta.
      unfold resourceContent in Hmiss. rewrite <- Hfiles, <- Hdrv in Hmiss.
      cbn [drv world files] in Hmiss. rewrite Hdrv in Hmiss.
      destruct fl1 as [|[e|] rest]; cbn [tail].
      + rewrite Hmiss. eauto.
      + exfalso. eapply Hread. reflexivity.
      + rewrite Hmiss. eauto.
    - exists st1. split; [|auto]. apply Habsent. rewrite Hdel. apply lookup_delete_eq. }
  split; [apply Habsent|]. split; [exact Hsecond|].
  intros Hnf.
  destruct (unprepareResource_noFaults claimUID st Hnf) as (st1 & Hfirst & Hnf1).
  destruct (Hsecond st1 Hfirst) as (st2 & H2).
  { intros f rest Hfl. unfold noFaults in Hnf1. rewrite Hfl in Hnf1.
    inversion Hnf1; discriminate. }
  exists st1, st2. auto.
Qed.

Lemma unprepare_idempotent_witness :
  unprepareResource "abc123" sampleState = (Ret None, sampleState) /\
  exists st1 st2,
    unprepareResource "abc123"
      (exec (prepareResource "abc123" "pod-using-claim-A") sampleState) = (Ret None, st1) /\
    unprepareResource "abc123" st1 = (Ret None, st2) /\
    drv st2 = drv st1 /\ files (world st2) = files (world st1).
Proof.
  split.
  - apply (proj1 (unprepare_idempotent sampleState "abc123")). reflexivity.
  - apply (proj2 (proj2 (unprepare_idempotent
                    (exec (prepareResource "abc123" "pod-using-claim-A") sampleState)
                    "abc123"))).
    vm_compute. constructor.
Defined.

(** C7, as the code has it.  For a tracked claim id: when the read of the
    resource file fails with an error other than "file does not exist",
    or the read succeeds and the rewrite fails, [unprepareResource]
    returns that error, wrapped.  Whenever it returns an error the claim
    id is still in DeviceRecord and DeviceRecord is as it was; no file
    but the resource file has changed; the resource file is as it was,
    or, when the rewrite failed after its open, it holds a prefix of the
    new content (none of it when the write failed at once).  The
    same unprepare can be called again: when the resource file was there
    and the second call meets no failure, it returns [nil] and removes
    the claim id.  (A missing file is not reported: the call returns
    [nil].) *)
Theorem unprepare_error_keeps_claim :
  forall (st : State) (claimUID podName : string),
    podResources (drv st) !! claimUID = Some podName ->
    (forall err st1,
        os_ReadFile (resourceFilePath (drv st)) st = (Ret (Err err), st1) ->
        os_IsNotExist err = false ->
        unprepareResource claimUID st
        = (Ret (Some (Errorf_w "failed to read resource file: " err)), st1)) /\
    (forall data st1 err st2,
        os_ReadFile (resourceFilePath (drv st)) st = (Ret (Ok data), st1) ->
        os_WriteFile (resourceFilePath (drv st))
                     (rewritten (formatLine podName claimUID) data) st1
        = (Ret (Some err), st2) ->
        unprepareResource claimUID st
        = (Ret (Some (Errorf_w "failed to write resource file: " err)), st2)) /\
    (forall e st',
        unprepareResource claimUID st = (Ret (Some e), st') ->
        podResources (drv st') !! claimUID = Some podName /\
        drv st' = drv st /\
        (forall path, path <> resourceFilePath (drv st) ->
                      files (world st') !! path = files (world st) !! path) /\
        (resourceContent st' = resourceContent st \/
         exists data,
           resourceContent st = Some data /\
           afterFailedWrite (Some data) (rewritten (formatLine podName claimUID) data)
                            (resourceContent st')) /\
        (is_Some (resourceContent st) -> noFaults st' ->
         exists st'',
           unprepareResource claimUID st' = (Ret None, st'') /\
           podResources (drv st'') !! claimUID = None)).
Proof.
  intros st claimUID podName Hpod. split; [|split].
  - destruct st as [d [fs fl]]. cbn [drv] in *. intros err st1.
    rewrite os_ReadFile_run, unprepareResource_run, Hpod. cbv zeta.
    destruct fl as [|[e|] rest]; cbn [tail].
    + destruct (fs !! resourceFilePath d); [discriminate|].
      intros [= <- <-]. discriminate.
    + intros [= <- <-] _. reflexivity.
    + destruct (fs !! resourceFilePath d); [discriminate|].
      intros [= <- <-]. discriminate.
  - destruct st as [d [fs fl]]. cbn [drv] in *. intros data st1 err st2.
    rewrite os_ReadFile_run, unprepareResource_run, Hpod. cbv zeta.
    destruct fl as [|[e|] rest]; cbn [tail].
    + destruct (fs !! resourceFilePath d); [|discriminate].
      intros [= <- <-]. rewrite os_WriteFile_run. discriminate.
    + discriminate.
    + destruct (fs !! resourceFilePath d); [|discriminate].
      intros [= <- <-]. rewrite os_WriteFile_run.
      destruct rest as [|[e|] rest]; [discriminate| |discriminate].
      intros [= <- <-]. reflexivity.
  - intros e st' Hrun.
    destruct (unprepare_error_parts st claimUID podName Hpod e st' Hrun)
      as (Hkeep & Hdrv & Hother & Hfile).
    repeat (split; [assumption|]).
    intros Hthere Hnf.
    destruct (unprepareResource_noFaults claimUID st' Hnf) as (st'' & Hretry & _).
    exists st''. split; [exact Hretry|].
    apply unprepareResource_success in Hretry
      as [[Hno _]|[(_ & Hmiss & _)|[_ Hdel]]].
    + congruence.
    + exfalso.
      destruct (proj2 (unprepare_error_keeps_file st claimUID e st' Hrun) Hthere)
        as [x Hx].
      congruence.
    + rewrite Hdel. apply lookup_delete_eq.
Qed.

Lemma unprepare_error_keeps_claim_witness :
  (exists st1,
      unprepareResource "abc123" preparedReadFails
      = (Ret (Some (Errorf_w "failed to read resource file: "
                      (PathError "open" "/etc/dra/file1" EIO))), st1)) /\
  (exists st2,
      unprepareResource "abc123" preparedWriteFails
      = (Ret (Some (Errorf_w "failed to write resource file: "
                      (PathError "write" "/etc/dra/file1" ENOSPC))), st2) /\
      podResources (drv st2) !! "abc123" = Some "pod-using-claim-A" /\
      resourceContent preparedWriteFails
      = Some ("pod-using-claim-A (claim: abc123)" +:+ nl) /\
      resourceContent st2 = Some EmptyString).
Proof.
  split.
  - eexists.
    apply (proj1 (unprepare_error_keeps_claim preparedReadFails
                    "abc123" "pod-using-claim-A" eq_refl)).
    + vm_compute. reflexivity.
    + reflexivity.
  - assert (Hrun : unprepareResource "abc123" preparedWriteFails
                   = (Ret (Some (Errorf_w "failed to write resource file: "
                                   (PathError "write" "/etc/dra/file1" ENOSPC))),
                      exec (unprepareResource "abc123") preparedWriteFails)).
    { apply (proj1 (proj2 (unprepare_error_keeps_claim preparedWriteFails
                             "abc123" "pod-using-claim-A" eq_refl))
               ("pod-using-claim-A (claim: abc123)" +:+ nl)
               (mkState (drv preparedWriteFails)
                        (mkWorld (files (world preparedWriteFails))
                                 [Some (FaultShortWrite 0)]))).
      - vm_compute. reflexivity.
      - vm_compute. reflexivity. }
    eexists. split; [exact Hrun|]. split.
    + apply (proj2 (proj2 (unprepare_error_keeps_claim preparedWriteFails
                             "abc123" "pod-using-claim-A" eq_refl)) _ _ Hrun).
    + split; vm_compute; reflexivity.
Defined.

(** C7, as the specification states it, fails: the read of a missing
    resource file is a failed read, and the call returns [nil]. *)
Lemma read_errors_surface_counterexample : ~ read_errors_surface_as_stated.
Proof.
  intros Hspec.
  destruct (Hspec preparedThenFileRemoved preparedThenFileRemoved
              "abc123" "pod-using-claim-A"
              (PathError "open" "/etc/dra/file1" ENOENT))
    as (e & st' & Hrun & _).
  - vm_compute. reflexivity.
  - vm_compute. reflexivity.
  - vm_compute in Hrun. discriminate Hrun.
Qed.

(** ** The injection descriptor *)

Lemma bind_Ret_inv {A B} (m : M A) (f : A -> M B) st b st' :
  (x ← m; f x) st = (Ret b, st') ->
  exists a st1, m st = (Ret a, st1) /\ f a st1 = (Ret b, st').
Proof.
  unfold mbind, M_bind. destruct (m st) as [[a|p] st1]; [eauto|discriminate].
Qed.

Lemma os_MkdirAll_run path d fs fl :
  os_MkdirAll path (mkState d (mkWorld fs fl)) =
  match fl with
  | Some e :: rest =>
      (Ret (Some (PathError "mkdir" path (fault_errno e))),
       mkState d (mkWorld fs rest))
  | _ => (Ret None, mkState d (mkWorld fs (tail fl)))
  end.
Proof. destruct fl as [|[e|] rest]; reflexivity. Qed.

Lemma os_Remove_run name d fs fl :
  os_Remove name (mkState d (mkWorld fs fl)) =
  match fl with
  | Some e :: rest =>
      (Ret (Some (PathError "remove" name (fault_errno e))),
       mkState d (mkWorld fs rest))
  | _ =>
      match fs !! name with
      | Some _ => (Ret None, mkState d (mkWorld (delete name fs) (tail fl)))
      | None => (Ret (Some (PathError "remove" name ENOENT)), mkState d (mkWorld fs (tail fl)))
      end
  end.
Proof.
  destruct fl as [|[e|] rest]; unfold os_Remove; run;
    try reflexivity; destruct (fs !! name); reflexivity.
Qed.

(** When [deleteCDISpec] returns [nil] there is no descriptor file. *)
Lemma deleteCDISpec_success claimUID st st' :
  deleteCDISpec claimUID st = (Ret None, st') ->
  descriptorContent st' = None /\ drv st' = drv st.
Proof.
  destruct st as [d [fs fl]]. unfold deleteCDISpec.
  change (mbind ?f getDriver ?st) with (f (drv st) st). cbv beta. cbn [drv].
  unfold mbind, M_bind. rewrite os_Remove_run. unfold descriptorContent.
  destruct fl as [|[e|] rest]; cbn [tail].
  - destruct (fs !! cdiFilePath d) eqn:Hf; intros [= <-]; cbn [drv world files];
      [rewrite lookup_delete_eq|]; auto.
  - destruct e; discriminate.
  - destruct (fs !! cdiFilePath d) eqn:Hf; intros [= <-]; cbn [drv world files];
      [rewrite lookup_delete_eq|]; auto.
Qed.

Lemma deleteCDISpec_noFaults claimUID st :
  noFaults st ->
  exists st', deleteCDISpec claimUID st = (Ret None, st') /\ noFaults st'.
Proof.
  destruct st as [d [fs fl]]. intros Hnf. unfold deleteCDISpec.
  change (mbind ?f getDriver ?st) with (f (drv st) st). cbv beta. cbn [drv].
  unfold mbind, M_bind. rewrite os_Remove_run.
  apply noFaults_cases in Hnf as [Hfl|(rest & Hfl & Hrest)];
    cbn [world faults] in Hfl; subst fl; cbn [tail];
    destruct (fs !! cdiFilePath d); eexists; (split; [reflexivity|]);
    unfold noFaults; cbn [world faults]; auto.
Qed.


Lemma createCDISpec_run `{JSON} claimUID d fs fl :
  createCDISpec claimUID (mkState d (mkWorld fs fl)) =
  match fl with
  | Some e :: rest =>
      (Ret (Some (Errorf_w "failed to create CDI directory: "
                    (PathError "mkdir" cdiDir (fault_errno e)))),
       mkState d (mkWorld fs rest))
  | _ =>
      match json_MarshalIndent (cdiSpecOf d) EmptyString "  " with
      | Err err =>
          (Ret (Some (Errorf_w "failed to marshal CDI spec: " err)),
           mkState d (mkWorld fs (tail fl)))
      | Ok data =>
          match tail fl with
          | Some e :: rest =>
              (Ret (Some (Errorf_w "failed to write CDI spec: "
                            (PathError (writeOp e) (cdiFilePath d) (fault_errno e)))),
               mkState d (mkWorld (written e (cdiFilePath d) data fs) rest))
          | _ =>
              (Ret None,
               mkState d (mkWorld (<[cdiFilePath d := data]> fs) (tail (tail fl))))
          end
      end
  end.
Proof.
  unfold createCDISpec. unfold mbind at 1, M_bind at 1. rewrite os_MkdirAll_run.
  destruct fl as [|[e|] rest]; [|reflexivity|]; cbn [tail];
    change (mbind ?f getDriver ?st) with (f (drv st) st); cbv beta; cbn [drv];
    (destruct (json_MarshalIndent (cdiSpecOf d) EmptyString "  ") as [data|err];
       [|reflexivity]);
    unfold mbind at 1, M_bind at 1; rewrite os_WriteFile_run.
  - reflexivity.
  - destruct rest as [|[e|] rest]; reflexivity.
Qed.

(** When [createCDISpec] returns [nil] the descriptor file holds the
    encoding of the spec, whose only device has the one mount of the
    resource file onto its own path, read-only and bind. *)
Lemma createCDISpec_success `{JSON} claimUID st st' :
  createCDISpec claimUID st = (Ret None, st') ->
  drv st' = drv st /\
  exists data,
    json_MarshalIndent (cdiSpecOf (drv st)) EmptyString "  " = Ok data /\
    descriptorContent st' = Some data.
Proof.
  destruct st as [d [fs fl]]. rewrite createCDISpec_run. cbn [drv].
  destruct fl as [|[e|] rest]; [|discriminate|]; cbn [tail];
    (destruct (json_MarshalIndent (cdiSpecOf d) EmptyString "  ") as [data|err];
       [|discriminate]).
  - intros [= <-]. split; [reflexivity|]. exists data. split; [reflexivity|].
    apply lookup_insert_eq.
  - destruct rest as [|[e|] rest]; [|discriminate|];
      intros [= <-]; (split; [reflexivity|]); exists data;
      (split; [reflexivity|]); apply lookup_insert_eq.
Qed.

Lemma extractPodName_state claim st podName st' :
  extractPodName claim st = (Ret podName, st') -> st' = st.
Proof.
  unfold extractPodName, slice_to.
  destruct (negb (String.eqb (Name claim) EmptyString)); [intros [= _ <-]; reflexivity|].
  destruct (Nat.leb 8 (String.length (Uid claim))); [|discriminate].
  intros [= _ <-]. reflexivity.
Qed.

(** The result [prepareClaim] records carries devices only when both
    [prepareResource] and [createCDISpec] returned [nil]. *)
Lemma prepareClaim_devices `{JSON} resp claim st resp' st' r :
  prepareClaim resp claim st = (Ret resp', st') ->
  resp' !! Uid claim = Some r ->
  Devices r <> [] ->
  exists podName st1,
    extractPodName claim st = (Ret podName, st) /\
    prepareResource (Uid claim) podName st = (Ret None, st1) /\
    createCDISpec (Uid claim) st1 = (Ret None, st').
Proof.
  unfold prepareClaim. intros Hrun Hr Hdev.
  apply bind_Ret_inv in Hrun as (podName & st0 & Hpod & Hrun).
  pose proof (extractPodName_state _ _ _ _ Hpod) as ->.
  apply bind_Ret_inv in Hrun as (err & st1 & Hprep & Hrun).
  destruct err as [err|].
  { injection Hrun as <- <-. rewrite lookup_insert_eq in Hr.
    injection Hr as <-. contradiction Hdev. reflexivity. }
  change (mbind ?f getDriver ?st) with (f (drv st) st) in Hrun. cbv beta in Hrun.
  apply bind_Ret_inv in Hrun as (err & st2 & Hcdi & Hrun).
  destruct err as [err|].
  { injection Hrun as <- <-. rewrite lookup_insert_eq in Hr.
    injection Hr as <-. contradiction Hdev. reflexivity. }
  injection Hrun as <- <-. eauto.
Qed.

Lemma unprepareClaim_noFaults resp claim st :
  noFaults st ->
  exists st1 st2,
    unprepareResource (Uid claim) st = (Ret None, st1) /\
    deleteCDISpec (Uid claim) st1 = (Ret None, st2) /\
    unprepareClaim resp claim st
    = (Ret (<[Uid claim := mkUnprepareResponse EmptyString]> resp), st2) /\
    noFaults st2.
Proof.
  intros Hnf.
  destruct (unprepareResource_noFaults (Uid claim) st Hnf) as (st1 & H1 & Hnf1).
  destruct (deleteCDISpec_noFaults (Uid claim) st1 Hnf1) as (st2 & H2 & Hnf2).
  exists st1, st2. repeat split; try assumption.
  unfold unprepareClaim, mbind, M_bind. rewrite H1, H2. reflexivity.
Qed.

(** C4, as the code has it.  There is one injection-descriptor file for
    the driver, not one per claim: [createCDISpec] and [deleteCDISpec] do
    not look at the claim id.  After the prepare of a claim has succeeded
    (its result carries devices), the file exists and holds the encoding
    of a spec whose device has one mount, with the resource file's path as
    host path and as container path, and the options read-only and bind.
    And when no failure is scheduled, the unprepare of any claim, prepared
    or not, leaves the node without the file. *)
Theorem descriptor_shared_by_claims `{JSON} :
  (forall X Y : string,
      createCDISpec X = createCDISpec Y /\ deleteCDISpec X = deleteCDISpec Y) /\
  (forall resp claim st resp' st' r,
      prepareClaim resp claim st = (Ret resp', st') ->
      resp' !! Uid claim = Some r ->
      Devices r <> [] ->
      exists data dev,
        descriptorContent st' = Some data /\
        json_MarshalIndent (cdiSpecOf (drv st')) EmptyString "  " = Ok data /\
        cdiDevices (cdiSpecOf (drv st')) = [dev] /\
        Mounts (ContainerEdits dev) = [resourceMount (drv st')]) /\
  (forall resp claim st,
      noFaults st ->
      descriptorContent (exec (unprepareClaim resp claim) st) = None).
Proof.
  split; [intros X Y; split; reflexivity|]. split.
  - intros resp claim st resp' st' r Hrun Hr Hdev.
    destruct (prepareClaim_devices _ _ _ _ _ _ Hrun Hr Hdev)
      as (podName & st1 & _ & _ & Hcdi).
    apply createCDISpec_success in Hcdi as (Hdrv & data & Hjson & Hfile).
    rewrite Hdrv. eexists data, _. split; [exact Hfile|]. split; [exact Hjson|].
    split; reflexivity.
  - intros resp claim st Hnf.
    destruct (unprepareClaim_noFaults resp claim st Hnf)
      as (st1 & st2 & _ & Hdel & Hrun & _).
    unfold exec. rewrite Hrun. cbn [snd].
    apply deleteCDISpec_success in Hdel as [Hgone _]. exact Hgone.
Qed.

Lemma descriptor_shared_by_claims_witness :
  (exists data dev,
      descriptorContent (exec (@prepareClaim sampleJSON ∅ claimA) sampleState) = Some data /\
      sampleJSON (cdiSpecOf sampleDriver) EmptyString "  " = Ok data /\
      cdiDevices (cdiSpecOf sampleDriver) = [dev] /\
      Mounts (ContainerEdits dev) = [mkMount "/etc/dra/file1" "/etc/dra/file1" ["ro"; "bind"]]) /\
  descriptorContent (exec (unprepareClaim ∅ claimB) bothPrepared) = None.
Proof.
  split.
  - destruct (@descriptor_shared_by_claims sampleJSON) as (_ & Hprep & _).
    refine (Hprep ∅ claimA sampleState _ _
              (mkPrepareResponse
                 [mkDevice "default" "file1" ["dra.example.com/file=file1"]] EmptyString)
              _ _ _).
    + vm_compute. reflexivity.
    + vm_compute. reflexivity.
    + discriminate.
  - destruct (@descriptor_shared_by_claims sampleJSON) as (_ & _ & Hunprep).
    apply Hunprep. vm_compute. constructor.
Defined.

(** C4, as the specification states it, fails: with two claims prepared,
    the unprepare of the second deletes the descriptor while the first is
    still prepared. *)
Lemma descriptor_per_claim_counterexample : ~ descriptor_per_claim_as_stated.
Proof.
  intros Hspec.
  assert (Hd : exists data, descriptorContent bothPrepared = Some data)
    by (vm_compute; eauto).
  destruct Hd as [data Hd].
  specialize (Hspec bothPrepared claimA claimB data).
  assert (Hnone : (None : option string) = Some data); [|discriminate Hnone].
  rewrite <- Hspec; [vm_compute; reflexivity|discriminate| |exact Hd].
  vm_compute. eauto.
Qed.

(** ** Prepare, then unprepare *)

(** An unprepare that rewrites the file removes the lines equal to the
    record of its claim and keeps every other line record, in order. *)
Lemma unprepareResource_removes_line claimUID podName data st st' :
  podResources (drv st) !! claimUID = Some podName ->
  resourceContent st = Some data ->
  unprepareResource claimUID st = (Ret None, st') ->
  resourceLines st' =
    List.filter (fun line => negb (String.eqb line (formatLine podName claimUID)))
                (resourceLines st) /\
  resourceContent st' = Some (rewritten (formatLine podName claimUID) data) /\
  podResources (drv st') !! claimUID = None.
Proof.
  intros Hpod Hdata Hrun.
  apply unprepareResource_success in Hrun
    as [[Hno _]|[(_ & Hmiss & _)|((pod' & data' & Hpod' & Hdata' & Hnew) & Hdel)]].
  - congruence.
  - congruence.
  - assert (pod' = podName) as -> by congruence.
    assert (data' = data) as -> by congruence.
    split; [|split; [exact Hnew|rewrite Hdel; apply lookup_delete_eq]].
    unfold resourceLines. rewrite Hnew, Hdata. apply fileLines_rewritten.
Qed.

(** C5, as the code has it.  For a claim id X and a label L that hold no
    line feed: after a successful prepare the resource file has the one
    line [L (claim: X)]; a subsequent successful unprepare of X leaves an
    empty file and forgets X.  In any file, an unprepare that rewrites it
    removes the lines equal to [L (claim: X)] and no other line record.
    With no failure scheduled both calls do succeed.  And the scenario of
    the specification: preparing the claim with id
    [abc123] and name [claim-A] gives the file content
    [pod-using-claim-A (claim: abc123)], unpreparing it an empty file. *)
Theorem prepare_unprepare_round_trip :
  (forall (st st1 st2 : State) (claimUID podName : string),
      singleLine claimUID -> singleLine podName ->
      prepareResource claimUID podName st = (Ret None, st1) ->
      unprepareResource claimUID st1 = (Ret None, st2) ->
      resourceLines st1 = [formatLine podName claimUID] /\
      resourceContent st2 = Some EmptyString /\
      resourceLines st2 = [] /\
      podResources (drv st2) !! claimUID = None) /\
  (forall (st : State) (claimUID podName : string),
      noFaults st ->
      exists st1 st2,
        prepareResource claimUID podName st = (Ret None, st1) /\
        unprepareResource claimUID st1 = (Ret None, st2)) /\
  (forall (st st' : State) (claimUID podName data : string),
      podResources (drv st) !! claimUID = Some podName ->
      resourceContent st = Some data ->
      unprepareResource claimUID st = (Ret None, st') ->
      resourceLines st' =
        List.filter (fun line => negb (String.eqb line (formatLine podName claimUID)))
                    (resourceLines st)) /\
  (let prepared := exec (@NodePrepareResources sampleJSON [claimA]) sampleState in
   resourceContent prepared = Some ("pod-using-claim-A (claim: abc123)" +:+ nl) /\
   resourceLines prepared = ["pod-using-claim-A (claim: abc123)"] /\
   resourceContent (exec (NodeUnprepareResources [claimA]) prepared) = Some EmptyString).
Proof.
  split; [|split; [|split]].
  - intros st st1 st2 claimUID podName Huid Hpod Hprep Hunprep.
    apply prepareResource_overwrites in Hprep as [Hfile Hpods].
    assert (Hline : singleLine (formatLine podName claimUID))
      by (apply singleLine_formatLine; auto).
    assert (Hne : nonEmpty (formatLine podName claimUID))
      by (apply String.eqb_neq, formatLine_nonempty).
    assert (Hl1 : resourceLines st1 = [formatLine podName claimUID]).
    { unfold resourceLines. rewrite Hfile. apply fileLines_single; assumption. }
    assert (Htracked : podResources (drv st1) !! claimUID = Some podName)
      by (rewrite Hpods; apply lookup_insert_eq).
    destruct (unprepareResource_removes_line _ _ _ _ _ Htracked Hfile Hunprep)
      as (Hl2 & Hnew & Hgone).
    rewrite rewritten_single, String.eqb_refl in Hnew by assumption.
    split; [exact Hl1|]. split; [exact Hnew|]. split; [|exact Hgone].
    unfold resourceLines. rewrite Hnew. reflexivity.
  - intros st claimUID podName Hnf.
    destruct (prepareResource_noFaults claimUID podName st Hnf) as (st1 & H1 & Hnf1).
    destruct (unprepareResource_noFaults claimUID st1 Hnf1) as (st2 & H2 & _).
    eauto.
  - intros st st' claimUID podName data Hpod Hdata Hrun.
    apply (unprepareResource_removes_line _ _ _ _ _ Hpod Hdata Hrun).
  - repeat split; vm_compute; reflexivity.
Qed.

Lemma prepare_unprepare_round_trip_witness :
  resourceLines (exec (prepareResource "abc123" "pod-using-claim-A") sampleState)
  = ["pod-using-claim-A (claim: abc123)"] /\
  resourceContent
    (exec (unprepareResource "abc123")
          (exec (prepareResource "abc123" "pod-using-claim-A") sampleState))
  = Some EmptyString.
Proof.
  destruct (proj1 prepare_unprepare_round_trip
              sampleState
              (exec (prepareResource "abc123" "pod-using-claim-A") sampleState)
              (exec (unprepareResource "abc123")
                    (exec (prepareResource "abc123" "pod-using-claim-A") sampleState))
              "abc123" "pod-using-claim-A")
    as (Hl & Hc & _).
  - reflexivity.
  - reflexivity.
  - vm_compute. reflexivity.
  - vm_compute. reflexivity.
  - split; [exact Hl|exact Hc].
Defined.

(** C5, as the specification states it, fails for a claim whose name holds
    a line feed: its record is not a line of the file after the prepare,
    and the text of the record is still in the file after the unprepare. *)
Lemma round_trip_counterexample :
  ~ round_trip_as_stated /\ ~ round_trip_of_text_as_stated.
Proof.
  pose (podName := "pod-using-" +:+ Name claimTwoLines).
  pose (st1 := exec (prepareResource "abc123" podName) sampleState).
  pose (st2 := exec (unprepareResource "abc123") st1).
  assert (H1 : prepareResource "abc123" podName sampleState = (Ret None, st1))
    by (vm_compute; reflexivity).
  assert (H2 : unprepareResource "abc123" st1 = (Ret None, st2))
    by (vm_compute; reflexivity).
  split; intros Hspec.
  - destruct (Hspec sampleState st1 st2 "abc123" podName H1 H2) as [Hin _].
    vm_compute in Hin. destruct Hin as [Hin|[Hin|[]]]; discriminate Hin.
  - destruct (Hspec sampleState st1 st2 "abc123" podName H1 H2) as [_ Hgone].
    apply (Hgone (formatLine podName "abc123" +:+ nl)); [vm_compute; reflexivity|].
    exists EmptyString, EmptyString. vm_compute. reflexivity.
Qed.

(** ** The batch of prepares *)

Lemma extractPodName_named claim st :
  Name claim <> EmptyString ->
  extractPodName claim st = (Ret ("pod-using-" +:+ Name claim), st).
Proof.
  intros Hn. unfold extractPodName.
  apply String.eqb_neq in Hn. rewrite Hn. reflexivity.
Qed.

Lemma extractPodName_unnamed claim st :
  Name claim = EmptyString ->
  extractPodName claim st =
  if Nat.leb 8 (String.length (Uid claim))
  then (Ret ("pod-" +:+ substring 0 8 (Uid claim)), st)
  else (Panic (SliceBoundsOutOfRange 8 (String.length (Uid claim))), st).
Proof.
  intros Hn. unfold extractPodName, slice_to. rewrite Hn. cbn [String.eqb negb].
  destruct (Nat.leb 8 (String.length (Uid claim))); reflexivity.
Qed.

Lemma forClaims_cons {R} (body : R -> Claim -> M R) claim rest resp st :
  forClaims body (claim :: rest) resp st =
  match body resp claim st with
  | (Ret resp', st1) => forClaims body rest resp' st1
  | (Panic p, st1) => (Panic p, st1)
  end.
Proof. reflexivity. Qed.

(** A batch that holds a claim on which [extractPodName] panics does not
    return. *)
Lemma forClaims_panics `{JSON} claim req resp st :
  In claim req ->
  (forall st0, exists p, extractPodName claim st0 = (Panic p, st0)) ->
  exists p st', forClaims prepareClaim req resp st = (Panic p, st').
Proof.
  intros Hin Hpanic. revert resp st.
  induction req as [|c rest IH]; [destruct Hin|]. intros resp st.
  rewrite forClaims_cons.
  destruct (prepareClaim resp c st) as [[resp'|p] st1] eqn:E; [|eauto].
  destruct Hin as [->|Hin]; [|apply IH, Hin].
  exfalso. unfold prepareClaim, mbind, M_bind in E.
  destruct (Hpanic st) as [p Hp]. rewrite Hp in E. discriminate E.
Qed.

(** C10.  For a claim without name, [extractPodName] takes the first 8
    bytes of the uid: it returns the label [pod-] followed by them when
    the uid has at least 8 bytes, and panics when it is shorter; then
    every batch of [NodePrepareResources] that holds the claim ends in a
    panic, with no response and so no per-claim error. *)
Theorem extractPodName_slices_uid `{JSON} :
  forall (claim : Claim) (st : State),
    Name claim = EmptyString ->
    (8 <= String.length (Uid claim) ->
     extractPodName claim st = (Ret ("pod-" +:+ substring 0 8 (Uid claim)), st)) /\
    (String.length (Uid claim) < 8 ->
     extractPodName claim st
     = (Panic (SliceBoundsOutOfRange 8 (String.length (Uid claim))), st) /\
     forall req, In claim req ->
       exists p st', NodePrepareResources req st = (Panic p, st')).
Proof.
  intros claim st Hname. split.
  - intros Hlen. rewrite extractPodName_unnamed by exact Hname.
    apply Nat.leb_le in Hlen. rewrite Hlen. reflexivity.
  - intros Hlen.
    assert (Hleb : Nat.leb 8 (String.length (Uid claim)) = false)
      by (apply Nat.leb_gt; exact Hlen).
    split.
    + rewrite extractPodName_unnamed by exact Hname. rewrite Hleb. reflexivity.
    + intros req Hin. apply (forClaims_panics claim); [exact Hin|].
      intros st0. rewrite extractPodName_unnamed by exact Hname.
      rewrite Hleb. eauto.
Qed.

Lemma extractPodName_slices_uid_witness :
  extractPodName (mkClaim "default" "0123456789abcdef" EmptyString) sampleState
  = (Ret "pod-01234567", sampleState) /\
  extractPodName claimShortUid sampleState
  = (Panic (SliceBoundsOutOfRange 8 3), sampleState) /\
  exists p st',
    @NodePrepareResources sampleJSON [claimA; claimShortUid; claimB] sampleState
    = (Panic p, st').
Proof.
  split; [|split].
  - apply (proj1 (@extractPodName_slices_uid sampleJSON
                    (mkClaim "default" "0123456789abcdef" EmptyString)
                    sampleState eq_refl)).
    vm_compute. lia.
  - apply (proj2 (@extractPodName_slices_uid sampleJSON claimShortUid
                    sampleState eq_refl)).
    vm_compute. lia.
  - apply (proj2 (@extractPodName_slices_uid sampleJSON claimShortUid
                    sampleState eq_refl)).
    + vm_compute. lia.
    + right. left. reflexivity.
Defined.

(** C8, at the input on which the code breaks it.  In a batch of a claim
    that can be prepared and a claim without name whose uid has 3 bytes,
    the first claim is prepared and then the handler panics: there is no
    response, so neither claim id is mapped to a result. *)
Theorem prepare_batch_aborts_on_short_uid :
  @NodePrepareResources sampleJSON [claimA; claimShortUid] sampleState
  = (Panic (SliceBoundsOutOfRange 8 3),
     exec (@NodePrepareResources sampleJSON [claimA]) sampleState) /\
  podResources (drv (exec (@NodePrepareResources sampleJSON [claimA]) sampleState))
    !! "abc123" = Some "pod-using-claim-A".
Proof. split; vm_compute; reflexivity. Qed.

Lemma prepareClaim_run `{JSON} resp claim podName d fs fl :
  extractPodName claim (mkState d (mkWorld fs fl))
  = (Ret podName, mkState d (mkWorld fs fl)) ->
  prepareClaim resp claim (mkState d (mkWorld fs fl)) =
  match fl with
  | Some e :: rest =>
      (Ret (<[Uid claim :=
                failed (Errorf_w "failed to write resource file: "
                          (PathError (writeOp e) (resourceFilePath d) (fault_errno e)))]>
              resp),
       mkState d
         (mkWorld (written e (resourceFilePath d)
                     (formatLine podName (Uid claim) +:+ nl) fs) rest))
  | _ =>
      let d' := withPodResources d (<[Uid claim := podName]> (podResources d)) in
      let fs' := <[resourceFilePath d := formatLine podName (Uid claim) +:+ nl]> fs in
      match createCDISpec (Uid claim) (mkState d' (mkWorld fs' (tail fl))) with
      | (Ret (Some err), st') => (Ret (<[Uid claim := failed err]> resp), st')
      | (Ret None, st') => (Ret (<[Uid claim := prepared d]> resp), st')
      | (Panic p, st') => (Panic p, st')
      end
  end.
Proof.
  intros Hpod. unfold prepareClaim.
  unfold mbind at 1, M_bind at 1. rewrite Hpod.
  unfold mbind at 1, M_bind at 1. rewrite prepareResource_run.
  destruct fl as [|[e|] rest]; [|reflexivity|]; cbn [tail];
    change (mbind ?f getDriver ?st) with (f (drv st) st); cbv beta;
    unfold mbind, M_bind;
    match goal with
    | |- context [createCDISpec ?u ?s] =>
        destruct (createCDISpec u s) as [[[err|]|p] st']
    end; reflexivity.
Qed.

Lemma Errorf_w_nonempty c prefix err :
  err_Error (Errorf_w (String c prefix) err) <> EmptyString.
Proof. discriminate. Qed.

Lemma sliceable_returns claim st :
  sliceable claim -> exists podName, extractPodName claim st = (Ret podName, st).
Proof.
  intros [Hn|Hlen].
  - rewrite extractPodName_named by exact Hn. eauto.
  - destruct (String.eqb_spec (Name claim) EmptyString) as [Hn|Hn].
    + rewrite extractPodName_unnamed by exact Hn.
      apply Nat.leb_le in Hlen. rewrite Hlen. eauto.
    + rewrite extractPodName_named by exact Hn. eauto.
Qed.

(** What [prepareClaim] does to the response for a claim it can label: it
    returns, and it sets the entry of the claim id, and no other entry, to
    a result that the configuration of the driver and the failures to
    come determine: not the response so far, the files or DeviceRecord,
    which are all that the claims before it have changed. *)
Lemma prepareClaim_contained `{JSON} resp claim st :
  sliceable claim ->
  exists st',
    prepareClaim resp claim st
    = (Ret (<[Uid claim := claimVerdict (drv st) (faults (world st))]> resp), st') /\
    driverName (drv st') = driverName (drv st) /\
    resourceDir (drv st') = resourceDir (drv st).
Proof.
  intros Hs. destruct st as [d [fs fl]].
  destruct (sliceable_returns claim (mkState d (mkWorld fs fl)) Hs) as [podName Hpod].
  rewrite (prepareClaim_run _ _ _ _ _ _ Hpod). cbn [drv world faults].
  destruct fl as [|[e|] rest]; [| eauto |]; cbv zeta;
    rewrite createCDISpec_run; unfold claimVerdict; cbn [tail];
    change (cdiSpecOf (withPodResources d ?m)) with (cdiSpecOf d).
  - destruct (json_MarshalIndent (cdiSpecOf d) EmptyString "  "); eauto.
  - destruct rest as [|[e|] rest]; [| eauto |]; cbn [tail];
      (destruct (json_MarshalIndent (cdiSpecOf d) EmptyString "  "); [|eauto]).
    + eauto.
    + destruct rest as [|[e|] rest]; eauto.
Qed.

Lemma claimVerdict_xor `{JSON} d fl : devicesXorError (claimVerdict d fl).
Proof.
  assert (Hf : forall c prefix err,
             devicesXorError (failed (Errorf_w (String c prefix) err))).
  { intros c prefix err. right. split; [reflexivity|apply Errorf_w_nonempty]. }
  assert (Hp : devicesXorError (prepared d)).
  { left. split; [discriminate|reflexivity]. }
  unfold claimVerdict.
  destruct fl as [|[e|] rest]; cbn [tail]; try apply Hf;
    try (destruct rest as [|[e|] rest]; cbn [tail]; try apply Hf);
    destruct (json_MarshalIndent (cdiSpecOf d) EmptyString "  "); try apply Hf;
    try apply Hp;
    destruct rest as [|[e|] rest]; try apply Hf; apply Hp.
Qed.

(** The result depends on the driver through its name and its resource
    directory only. *)
Lemma claimVerdict_environment `{JSON} d d' fl :
  driverName d = driverName d' -> resourceDir d = resourceDir d' ->
  claimVerdict d fl = claimVerdict d' fl.
Proof.
  intros Hdn Hrd. unfold claimVerdict, prepared, cdiSpecOf, cdiFilePath, cdiFileName,
    resourceFilePath. rewrite Hdn, Hrd. reflexivity.
Qed.

(** Batches without panic.  A batch of claims that can all be labelled
    returns a response that maps the requested claim ids, and only them,
    to results with devices or an error and not both. *)
Theorem prepare_batch_contained `{JSON} :
  forall (req : list Claim) (st : State),
    Forall sliceable req ->
    exists resp st',
      NodePrepareResources req st = (Ret resp, st') /\
      (forall claimUID,
          is_Some (resp !! claimUID) <-> exists claim, In claim req /\ Uid claim = claimUID) /\
      (forall claimUID r, resp !! claimUID = Some r -> devicesXorError r).
Proof.
  intros req st Hall. unfold NodePrepareResources.
  assert (Hgen : forall resp0,
    (forall claimUID r, resp0 !! claimUID = Some r -> devicesXorError r) ->
    exists resp st',
      forClaims prepareClaim req resp0 st = (Ret resp, st') /\
      (forall claimUID,
          is_Some (resp !! claimUID) <->
          is_Some (resp0 !! claimUID) \/ exists claim, In claim req /\ Uid claim = claimUID) /\
      (forall claimUID r, resp !! claimUID = Some r -> devicesXorError r)).
  { revert st. induction Hall as [|claim rest Hs _ IH]; intros st resp0 Hxor.
    - exists resp0, st. split; [reflexivity|]. split; [|exact Hxor].
      intros claimUID. split; [auto|]. intros [Hsome|(claim & [] & _)]. exact Hsome.
    - rewrite forClaims_cons.
      destruct (prepareClaim_contained resp0 claim st Hs) as (st1 & -> & _).
      destruct (IH st1 (<[Uid claim := claimVerdict (drv st) (faults (world st))]> resp0))
        as (resp & st' & Hrun & Hdom & Hres).
      { intros claimUID r. rewrite lookup_insert.
        destruct (decide (Uid claim = claimUID)); [|apply Hxor].
        intros [= <-]. apply claimVerdict_xor. }
      exists resp, st'. split; [exact Hrun|]. split; [|exact Hres].
      intros claimUID. rewrite Hdom, lookup_insert.
      destruct (decide (Uid claim = claimUID)) as [Heq|Hne].
      + split; [|intros _; left; eauto]. intros _. right. exists claim. split; [left|]; auto.
      + split.
        * intros [Hsome|(c & Hin & Hc)]; [left; exact Hsome|].
          right. exists c. split; [right|]; auto.
        * intros [Hsome|(c & [->|Hin] & Hc)]; [left; exact Hsome|contradiction|].
          right. exists c. auto. }
  destruct (Hgen ∅) as (resp & st' & Hrun & Hdom & Hres).
  { intros claimUID r. rewrite lookup_empty. discriminate. }
  exists resp, st'. split; [exact Hrun|]. split; [|exact Hres].
  intros claimUID. rewrite Hdom, lookup_empty. split.
  - intros [[x Hx]|Hex]; [discriminate|exact Hex].
  - auto.
Qed.

Lemma prepare_batch_contained_witness :
  exists resp st',
    @NodePrepareResources sampleJSON [claimA; claimB] sampleState = (Ret resp, st') /\
    (forall claimUID,
        is_Some (resp !! claimUID) <->
        exists claim, In claim [claimA; claimB] /\ Uid claim = claimUID) /\
    (forall claimUID r, resp !! claimUID = Some r -> devicesXorError r).
Proof.
  apply (@prepare_batch_contained sampleJSON [claimA; claimB] sampleState).
  repeat constructor; discriminate.
Defined.

Lemma forClaims_app {R} (body : R -> Claim -> M R) l1 l2 resp st :
  forClaims body (l1 ++ l2) resp st =
  match forClaims body l1 resp st with
  | (Ret resp1, st1) => forClaims body l2 resp1 st1
  | (Panic p, st1) => (Panic p, st1)
  end.
Proof.
  revert resp st. induction l1 as [|c l1 IH]; intros resp st; [reflexivity|].
  rewrite <- app_comm_cons, !forClaims_cons.
  destruct (body resp c st) as [[resp'|p] st1]; [apply IH|reflexivity].
Qed.

(** A batch of claims that can be labelled returns, keeps the
    configuration of the driver, and leaves the results of the claim ids
    it does not hold as they are. *)
Lemma forClaims_frame `{JSON} req resp0 st :
  Forall sliceable req ->
  exists resp st',
    forClaims prepareClaim req resp0 st = (Ret resp, st') /\
    driverName (drv st') = driverName (drv st) /\
    resourceDir (drv st') = resourceDir (drv st) /\
    forall claimUID, ~ In claimUID (List.map Uid req) -> resp !! claimUID = resp0 !! claimUID.
Proof.
  intros Hall. revert resp0 st.
  induction Hall as [|claim rest Hs _ IH]; intros resp0 st.
  - exists resp0, st. auto.
  - rewrite forClaims_cons.
    destruct (prepareClaim_contained resp0 claim st Hs) as (st1 & -> & Hdn & Hrd).
    destruct (IH (<[Uid claim := claimVerdict (drv st) (faults (world st))]> resp0) st1)
      as (resp & st' & -> & Hdn' & Hrd' & Hframe).
    exists resp, st'. split; [reflexivity|].
    split; [congruence|]. split; [congruence|].
    intros claimUID Hnot. cbn [List.map In] in Hnot.
    rewrite Hframe by tauto. apply lookup_insert_ne. tauto.
Qed.

(** Independent results.  In a batch of claims that can all be labelled,
    the result of a claim (the last one with its claim id) is what the
    configuration of the driver and the failures to come at its turn
    determine: whether the claims before it failed or succeeded, and what
    the claims after it do, does not change it. *)
Theorem prepare_batch_independent `{JSON} :
  forall (pre post : list Claim) (claim : Claim) (st : State),
    Forall sliceable (pre ++ claim :: post) ->
    ~ In (Uid claim) (List.map Uid post) ->
    exists resp st',
      NodePrepareResources (pre ++ claim :: post) st = (Ret resp, st') /\
      resp !! Uid claim
      = Some (claimVerdict (drv st)
                (faults (world (exec (NodePrepareResources pre) st)))).
Proof.
  intros pre post claim st Hall Hlast.
  apply Forall_app in Hall as [Hpre Hrest].
  inversion Hrest as [|? ? Hclaim Hpost]; subst.
  unfold NodePrepareResources, exec. rewrite forClaims_app.
  destruct (forClaims_frame pre ∅ st Hpre) as (resp1 & st1 & -> & Hdn & Hrd & _).
  cbn [snd]. rewrite forClaims_cons.
  destruct (prepareClaim_contained resp1 claim st1 Hclaim) as (st2 & -> & _).
  destruct (forClaims_frame post
              (<[Uid claim := claimVerdict (drv st1) (faults (world st1))]> resp1)
              st2 Hpost)
    as (resp & st' & -> & _ & _ & Hframe).
  exists resp, st'. split; [reflexivity|].
  rewrite (Hframe _ Hlast), lookup_insert_eq.
  f_equal. apply claimVerdict_environment; assumption.
Qed.

Lemma prepare_batch_independent_witness :
  exists resp st',
    @NodePrepareResources sampleJSON [claimA; claimB] preparedReadFails = (Ret resp, st') /\
    resp !! "def456"
    = Some (mkPrepareResponse
              [mkDevice "default" "file1" ["dra.example.com/file=file1"]] EmptyString).
Proof.
  apply (@prepare_batch_independent sampleJSON [claimA] [] claimB preparedReadFails).
  - repeat constructor; discriminate.
  - intros [].
Defined.

(** ** Publishing the inventory record *)

(** On the API server in memory: when the record exists and no failure is
    scheduled, the creation fails with "already exists" and the publish
    updates the record under the stored resource version. *)
Lemma publish_existing_updates p b existing :
  Publisher.slices b !! Publisher.sliceNameOf p = Some existing ->
  Publisher.apiFaults b = [] ->
  (exists err b1, Publisher.Create (Publisher.sliceOf p) b = (Err err, b1) /\
                  IsAlreadyExists err = true) /\
  exists b',
    Publisher.PublishResources p b = (None, b') /\
    Publisher.slices b' =
      <[Publisher.sliceNameOf p :=
          Publisher.withResourceVersion (Publisher.sliceOf p)
            (Publisher.versionString (S (Publisher.revision b)))]> (Publisher.slices b).
Proof.
  destruct b as [sl rev fl]. cbn [Publisher.slices Publisher.apiFaults Publisher.revision].
  intros Hex ->.
  assert (Hc : Publisher.brokerCreate (Publisher.sliceOf p) (Publisher.mkBroker sl rev [])
               = (Err (StatusError AlreadyExists
                         ("resourceslices '" +:+ Publisher.sliceNameOf p
                          +:+ "' already exists")),
                  Publisher.mkBroker sl rev [])).
  { unfold Publisher.brokerCreate, Publisher.popApiFault.
    cbn [Publisher.apiFaults Publisher.slices Publisher.sliceName Publisher.sliceOf].
    rewrite Hex. reflexivity. }
  assert (Hg : Publisher.brokerGet (Publisher.sliceNameOf p) (Publisher.mkBroker sl rev [])
               = (Ok existing, Publisher.mkBroker sl rev [])).
  { unfold Publisher.brokerGet, Publisher.popApiFault.
    cbn [Publisher.apiFaults Publisher.slices]. rewrite Hex. reflexivity. }
  split; [eexists _, _; split; [exact Hc|reflexivity]|].
  unfold Publisher.PublishResources.
  cbn [Publisher.Create Publisher.Get Publisher.Update Publisher.brokerClient].
  rewrite Hc, Hg.
  unfold Publisher.brokerUpdate, Publisher.popApiFault, Publisher.store.
  cbn [Publisher.apiFaults Publisher.slices Publisher.sliceName Publisher.sliceOf
       Publisher.withResourceVersion Publisher.ResourceVersion Publisher.revision].
  rewrite Hex, String.eqb_refl. eexists. split; reflexivity.
Qed.

(** C9, as the code has it.  [PublishResources] first tries to create the
    record, and returns [nil] when that succeeds.  When the creation
    fails, for whatever reason ("already exists" or another), it fetches
    the record: a failure of the fetch is returned as an error that names
    both failures; otherwise it updates the record under the resource
    version of the fetched one, and returns the failure of the update, if
    any.  So a creation failure other than "already exists" is reported
    only when the fetch fails as well. *)
Theorem publish_create_then_update :
  forall (B : Type) (client : Publisher.ResourceSliceInterface B)
         (p : Publisher.ResourcePublisher) (b : B),
    (forall s b1,
        Publisher.Create (Publisher.sliceOf p) b = (Ok s, b1) ->
        Publisher.PublishResources p b = (None, b1)) /\
    (forall err b1 getErr b2,
        Publisher.Create (Publisher.sliceOf p) b = (Err err, b1) ->
        Publisher.Get (Publisher.sliceNameOf p) b1 = (Err getErr, b2) ->
        Publisher.PublishResources p b
        = (Some (errorString ("failed to create or get ResourceSlice: create="
                              +:+ err_Error err +:+ ", get=" +:+ err_Error getErr)),
           b2)) /\
    (forall err b1 existing b2 r b3,
        Publisher.Create (Publisher.sliceOf p) b = (Err err, b1) ->
        Publisher.Get (Publisher.sliceNameOf p) b1 = (Ok existing, b2) ->
        Publisher.Update
          (Publisher.withResourceVersion (Publisher.sliceOf p)
             (Publisher.ResourceVersion existing)) b2 = (r, b3) ->
        Publisher.PublishResources p b
        = (match r with
           | Ok _ => None
           | Err updErr => Some (Errorf_w "failed to update ResourceSlice: " updErr)
           end, b3)).
Proof.
  intros B client p b. unfold Publisher.PublishResources. repeat split.
  - intros s b1 ->. reflexivity.
  - intros err b1 getErr b2 -> ->. reflexivity.
  - intros err b1 existing b2 r b3 -> -> ->. destruct r; reflexivity.
Qed.

Lemma publish_create_then_update_witness :
  Publisher.PublishResources samplePublisher emptyBroker = (None, publishedBroker) /\
  (exists e b',
      Publisher.PublishResources samplePublisher publishedBrokerDown = (Some e, b') /\
      err_Error e
      = "failed to create or get ResourceSlice: create=injected failure, get=injected failure") /\
  exists b', Publisher.PublishResources samplePublisher publishedBroker = (None, b').
Proof.
  split; [|split].
  - apply (proj1 (publish_create_then_update _ _ samplePublisher emptyBroker)
             (Publisher.withResourceVersion (Publisher.sliceOf samplePublisher)
                (Publisher.versionString 1))).
    vm_compute. reflexivity.
  - eexists _, _. split.
    + eapply (proj1 (proj2 (publish_create_then_update _ _ samplePublisher
                              publishedBrokerDown))).
      * vm_compute. reflexivity.
      * vm_compute. reflexivity.
    + vm_compute. reflexivity.
  - eexists.
    eapply (proj2 (proj2 (publish_create_then_update _ _ samplePublisher
                            publishedBroker))
              _ _ _ _ (Ok _)).
    + vm_compute. reflexivity.
    + vm_compute. reflexivity.
    + vm_compute. reflexivity.
Defined.

(** C9, as the specification states it, fails: the creation times out,
    the record is there, the fetch and the update go through, and the
    publish returns [nil]. *)
Lemma create_failures_reported_counterexample : ~ create_failures_reported_as_stated.
Proof.
  intros Hspec.
  destruct (Hspec Publisher.Broker Publisher.brokerClient samplePublisher
              publishedBrokerTimeout
              (Publisher.mkBroker (Publisher.slices publishedBroker)
                 (Publisher.revision publishedBroker) [])
              (StatusError ServerTimeout "injected failure"))
    as (e & b' & Hrun).
  - vm_compute. reflexivity.
  - reflexivity.
  - vm_compute in Hrun. discriminate Hrun.
Qed.

(** * Further properties of the code *)

(** ** Paths *)

Lemma Split_fields s sep : exists h t, strings_Split s sep = h :: t.
Proof.
  induction s as [|c s IH]; simpl; [eauto|].
  destruct (Ascii.eqb c sep); [eauto|].
  destruct IH as (h & t & ->). eauto.
Qed.

Lemma Split_app x s sep :
  strings_Split (x +:+ String sep s) sep = strings_Split x sep ++ strings_Split s sep.
Proof.
  induction x as [|c x IH]; rewrite ?append_cons; cbn [strings_Split].
  - change (EmptyString +:+ String sep s) with (String sep s). cbn [strings_Split].
    rewrite Ascii.eqb_refl. reflexivity.
  - destruct (Ascii.eqb c sep); [rewrite IH; reflexivity|].
    rewrite IH. destruct (Split_fields x sep) as (h & t & ->). reflexivity.
Qed.

Lemma Split_sep_free x sep : occurs sep x = false -> strings_Split x sep = [x].
Proof.
  induction x as [|c x IH]; simpl; intros Hx; [reflexivity|].
  apply orb_false_iff in Hx as [Hc Hx].
  rewrite Hc, (IH Hx). reflexivity.
Qed.

Lemma ReplaceAll_removes s old new :
  Ascii.eqb new old = false -> occurs old (strings_ReplaceAll s old new) = false.
Proof.
  intros Hne. induction s as [|c s IH]; simpl; [reflexivity|].
  rewrite IH, orb_false_r.
  destruct (Ascii.eqb c old) eqn:Hc; [exact Hne|exact Hc].
Qed.

Lemma append_length (a b : string) :
  String.length (a +:+ b) = String.length a + String.length b.
Proof.
  induction a as [|c a IH]; [reflexivity|].
  rewrite append_cons. cbn [String.length]. rewrite IH. reflexivity.
Qed.

Lemma cdiFileName_no_slash d : occurs slash (cdiFileName d) = false.
Proof.
  unfold cdiFileName. rewrite !occurs_app.
  rewrite ReplaceAll_removes by reflexivity. reflexivity.
Qed.

Lemma cdiFileName_component d :
  String.eqb (cdiFileName d) EmptyString = false /\
  String.eqb (cdiFileName d) "." = false /\
  String.eqb (cdiFileName d) ".." = false.
Proof.
  assert (Hlen : 16 <= String.length (cdiFileName d)).
  { unfold cdiFileName. rewrite !append_length. cbn. lia. }
  repeat split; apply String.eqb_neq; intros Heq; rewrite Heq in Hlen;
    cbn in Hlen; lia.
Qed.

Lemma substring_all (b : string) : substring 0 (String.length b) b = b.
Proof. induction b as [|c b IH]; [reflexivity|]. cbn. rewrite IH. reflexivity. Qed.

Lemma substring_skip (a b : string) n :
  substring (String.length a) n (a +:+ b) = substring 0 n b.
Proof.
  induction a as [|c a IH]; [reflexivity|].
  rewrite append_cons. cbn [String.length substring]. exact IH.
Qed.

Lemma HasSuffix_app (a b : string) : strings_HasSuffix (a +:+ b) b = true.
Proof.
  unfold strings_HasSuffix. rewrite append_length.
  replace (String.length a + String.length b - String.length b)
    with (String.length a) by lia.
  rewrite substring_skip, substring_all, String.eqb_refl, andb_true_r.
  apply Nat.leb_le. lia.
Qed.

Lemma cdiFilePath_direct_child d :
  cdiFilePath d = cdiDir +:+ "/" +:+ cdiFileName d.
Proof.
  unfold cdiFilePath. cbn [filepath_Join strings_Join].
  change (String.eqb cdiDir EmptyString) with false. cbv iota.
  unfold filepath_Clean.
  change (cdiDir +:+ "/" +:+ cdiFileName d)
    with ("/var/run/cdi" +:+ String slash (cdiFileName d)).
  rewrite Split_app, (Split_sep_free _ _ (cdiFileName_no_slash d)).
  destruct (cdiFileName_component d) as (He & Hd & Hdd).
  cbn [append]. cbv iota.
  change (strings_Split "/var/run/cdi" slash) with [EmptyString; "var"; "run"; "cdi"].
  cbn [app fold_left]. unfold clean_step at 1. rewrite He, Hd, Hdd.
  reflexivity.
Qed.

(** Whatever the name of the driver, with slashes or dots in it, the
    descriptor file is a direct child of the CDI directory: its path is the
    directory, a slash, and a file name without slash that ends in
    [.json]. *)
Theorem descriptor_stays_in_cdi_dir :
  forall d : Driver,
    cdiFilePath d = cdiDir +:+ "/" +:+ cdiFileName d /\
    occurs slash (cdiFileName d) = false /\
    strings_HasSuffix (cdiFileName d) ".json" = true.
Proof.
  intros d. split; [apply cdiFilePath_direct_child|].
  split; [apply cdiFileName_no_slash|].
  unfold cdiFileName.
  change (strings_ReplaceAll (driverName d) slash dash +:+ "-file-"
          +:+ resourceFileName +:+ ".json")
    with (strings_ReplaceAll (driverName d) slash dash +:+ "-file-"
          +:+ (resourceFileName +:+ ".json")).
  rewrite <- !append_assoc. apply HasSuffix_app.
Qed.

Lemma clean_step_push rooted stack comp :
  String.eqb comp EmptyString = false ->
  String.eqb comp "." = false ->
  String.eqb comp ".." = false ->
  clean_step rooted stack comp = comp :: stack.
Proof. intros He Hd Hdd. unfold clean_step. rewrite He, Hd, Hdd. reflexivity. Qed.

(** Cleaning a path that ends in a plain component keeps this component
    as the last one. *)
Lemma Clean_keeps_base dir base :
  dir <> EmptyString ->
  occurs slash base = false ->
  String.eqb base EmptyString = false ->
  String.eqb base "." = false ->
  String.eqb base ".." = false ->
  exists parent,
    filepath_Clean (dir +:+ String slash base) = parent +:+ base /\
    (parent = EmptyString \/ lastByte parent = Some slash).
Proof.
  intros Hdir Hfree He Hd Hdd. unfold filepath_Clean.
  rewrite Split_app, (Split_sep_free _ _ Hfree), fold_left_app.
  destruct dir as [|c dir]; [congruence|]. rewrite append_cons.
  set (rooted := Ascii.eqb c slash).
  set (stack := fold_left (clean_step rooted) (strings_Split (String c dir) slash) []).
  cbn [fold_left]. rewrite (clean_step_push _ _ _ He Hd Hdd). cbn [rev].
  assert (Hbody : exists parent,
             strings_Join (rev stack ++ [base]) "/" = parent +:+ base /\
             (parent = EmptyString \/ lastByte parent = Some slash)).
  { destruct (rev stack) as [|x xs] eqn:Hrev.
    - exists EmptyString. split; [reflexivity|left; reflexivity].
    - rewrite Join_snoc by discriminate.
      exists (strings_Join (x :: xs) "/" +:+ "/"). split.
      + rewrite append_assoc. reflexivity.
      + right. apply lastByte_app. }
  destruct Hbody as (parent & -> & Hparent).
  destruct rooted.
  - exists ("/" +:+ parent). split; [rewrite append_assoc; reflexivity|].
    right. destruct Hparent as [->|Hl]; [reflexivity|].
    destruct parent as [|p parent]; [discriminate|].
    change ("/" +:+ String p parent) with (EmptyString +:+ "/" +:+ String p parent).
    rewrite <- Hl. change (EmptyString +:+ "/" +:+ String p parent)
      with ("/" +:+ String p parent). apply (lastByte_app "/" p parent).
  - assert (Hne : String.eqb (parent +:+ base) EmptyString = false).
    { apply String.eqb_neq. destruct base as [|b base]; [discriminate|].
      apply append_nonempty. }
    rewrite Hne. eauto.
Qed.

(** Whatever the resource directory, the resource file is named [file1],
    in the current directory or below a directory. *)
Lemma resourceFilePath_base d :
  exists parent,
    resourceFilePath d = parent +:+ resourceFileName /\
    (parent = EmptyString \/ lastByte parent = Some slash).
Proof.
  unfold resourceFilePath. cbn [filepath_Join].
  destruct (String.eqb_spec (resourceDir d) EmptyString) as [Hempty|Hdir].
  - exists EmptyString. split; [reflexivity|left; reflexivity].
  - cbn [strings_Join].
    apply (Clean_keeps_base (resourceDir d) resourceFileName Hdir); reflexivity.
Qed.

Lemma paths_differ d : resourceFilePath d <> cdiFilePath d.
Proof.
  intros Heq.
  assert (H1 : lastByte (resourceFilePath d) = Some "1"%char).
  { destruct (resourceFilePath_base d) as (parent & -> & _).
    apply (lastByte_app parent "f" "ile1"). }
  assert (H2 : lastByte (cdiFilePath d) = Some "n"%char).
  { rewrite cdiFilePath_direct_child.
    unfold cdiFileName. rewrite <- !append_assoc.
    apply (lastByte_app _ "." "json"). }
  rewrite Heq, H2 in H1. discriminate H1.
Qed.

(** ** The steps of a prepare and of an unprepare on the two files *)

Lemma createCDISpec_frame `{JSON} claimUID st :
  exists r st',
    createCDISpec claimUID st = (Ret r, st') /\
    drv st' = drv st /\
    forall path, path <> cdiFilePath (drv st) ->
                 files (world st') !! path = files (world st) !! path.
Proof.
  destruct st as [d [fs fl]]. rewrite createCDISpec_run. cbn [drv world files].
  assert (Hins : forall data path, path <> cdiFilePath d ->
                   <[cdiFilePath d := data]> fs !! path = fs !! path).
  { intros data path Hne. apply lookup_insert_ne. congruence. }
  destruct fl as [|[e|] rest]; cbn [tail]; [|eauto|];
    (destruct (json_MarshalIndent (cdiSpecOf d) EmptyString "  ") as [data|err];
       [|eauto]).
  - eexists _, _. split; [reflexivity|]. split; [reflexivity|apply Hins].
  - destruct rest as [|[e|] rest]; [| |];
      (eexists _, _; split; [reflexivity|]; split; [reflexivity|]);
      try apply Hins.
    intros path Hne. apply written_other, Hne.
Qed.

Lemma deleteCDISpec_frame claimUID st :
  exists r st',
    deleteCDISpec claimUID st = (Ret r, st') /\
    drv st' = drv st /\
    forall path, path <> cdiFilePath (drv st) ->
                 files (world st') !! path = files (world st) !! path.
Proof.
  destruct st as [d [fs fl]]. unfold deleteCDISpec.
  change (mbind ?f getDriver ?st) with (f (drv st) st). cbv beta. cbn [drv].
  unfold mbind, M_bind. rewrite os_Remove_run. cbn [drv world files].
  destruct fl as [|[e|] rest]; cbn [tail].
  - destruct (fs !! cdiFilePath d); eexists _, _; (split; [reflexivity|]);
      (split; [reflexivity|]); intros path Hne; cbn [world files]; [|reflexivity].
    apply lookup_delete_ne. congruence.
  - destruct e; eexists _, _; (split; [reflexivity|]); auto.
  - destruct (fs !! cdiFilePath d); eexists _, _; (split; [reflexivity|]);
      (split; [reflexivity|]); intros path Hne; cbn [world files]; [|reflexivity].
    apply lookup_delete_ne. congruence.
Qed.

(** Writing and deleting the descriptor never touches the resource file
    or DeviceRecord, whatever the configuration of the driver and whether
    the step succeeds or fails: the two files have different paths. *)
Theorem descriptor_steps_spare_resource_file `{JSON} :
  forall (claimUID : string) (st : State),
    resourceFilePath (drv st) <> cdiFilePath (drv st) /\
    resourceContent (exec (createCDISpec claimUID) st) = resourceContent st /\
    podResources (drv (exec (createCDISpec claimUID) st)) = podResources (drv st) /\
    resourceContent (exec (deleteCDISpec claimUID) st) = resourceContent st /\
    podResources (drv (exec (deleteCDISpec claimUID) st)) = podResources (drv st).
Proof.
  intros claimUID st. split; [apply paths_differ|].
  destruct (createCDISpec_frame claimUID st) as (r1 & st1 & H1 & Hd1 & Hf1).
  destruct (deleteCDISpec_frame claimUID st) as (r2 & st2 & H2 & Hd2 & Hf2).
  unfold exec, resourceContent. rewrite H1, H2. cbn [snd].
  rewrite Hd1, Hd2, Hf1, Hf2 by apply paths_differ. auto.
Qed.

(** The three ways in which the body of the prepare loop returns. *)
Lemma prepareClaim_cases `{JSON} resp claim st resp' st' :
  prepareClaim resp claim st = (Ret resp', st') ->
  exists podName,
    extractPodName claim st = (Ret podName, st) /\
    ((exists err,
         prepareResource (Uid claim) podName st = (Ret (Some err), st') /\
         resp' = <[Uid claim := failed err]> resp)
     \/ (exists st1 err,
           prepareResource (Uid claim) podName st = (Ret None, st1) /\
           createCDISpec (Uid claim) st1 = (Ret (Some err), st') /\
           resp' = <[Uid claim := failed err]> resp)
     \/ (exists st1,
           prepareResource (Uid claim) podName st = (Ret None, st1) /\
           createCDISpec (Uid claim) st1 = (Ret None, st') /\
           resp' = <[Uid claim := prepared (drv st1)]> resp)).
Proof.
  unfold prepareClaim. intros Hrun.
  apply bind_Ret_inv in Hrun as (podName & st0 & Hpod & Hrun).
  pose proof (extractPodName_state _ _ _ _ Hpod) as ->.
  exists podName. split; [exact Hpod|].
  apply bind_Ret_inv in Hrun as (err & st1 & Hprep & Hrun).
  destruct err as [err|].
  { injection Hrun as <- <-. left. eauto. }
  change (mbind ?f getDriver ?st) with (f (drv st) st) in Hrun. cbv beta in Hrun.
  apply bind_Ret_inv in Hrun as (err & st2 & Hcdi & Hrun).
  destruct err as [err|]; injection Hrun as <- <-; right; [left|right]; eauto.
Qed.




(** The turn of a claim in the loop of [NodePrepareResources].  When the
    turn ends with a result that carries devices, both steps have been
    done: at the end of the turn, before the next claim of the batch is
    handled, the claim id is in DeviceRecord with its label, the resource
    file holds the record of the claim and nothing else, and the
    descriptor file exists beside it.  (The turn of a later claim
    overwrites the resource file.) *)
Theorem prepare_leaves_record_and_descriptor `{JSON} :
  forall resp claim st resp' st' r,
    prepareClaim resp claim st = (Ret resp', st') ->
    resp' !! Uid claim = Some r ->
    Devices r <> [] ->
    exists podName data,
      extractPodName claim st = (Ret podName, st) /\
      podResources (drv st') !! Uid claim = Some podName /\
      resourceContent st' = Some (formatLine podName (Uid claim) +:+ nl) /\
      descriptorContent st' = Some data.
Proof.
  intros resp claim st resp' st' r Hrun Hr Hdev.
  destruct (prepareClaim_devices _ _ _ _ _ _ Hrun Hr Hdev)
    as (podName & st1 & Hpod & Hprep & Hcdi).
  apply prepareResource_overwrites in Hprep as [Hfile Hpods].
  destruct (createCDISpec_frame (Uid claim) st1) as (r1 & st2 & H1 & Hdrv & Hframe).
  rewrite Hcdi in H1. injection H1 as <- <-.
  apply createCDISpec_success in Hcdi as (_ & data & _ & Hdesc).
  exists podName, data. split; [exact Hpod|]. split; [|split; [|exact Hdesc]].
  - rewrite Hdrv, Hpods. apply lookup_insert_eq.
  - unfold resourceContent in *. rewrite Hdrv, Hframe by apply paths_differ.
    exact Hfile.
Qed.

Lemma prepare_leaves_record_and_descriptor_witness :
  exists podName data,
    extractPodName claimA sampleState = (Ret podName, sampleState) /\
    podResources (drv (exec (@prepareClaim sampleJSON ∅ claimA) sampleState)) !! "abc123"
    = Some podName /\
    resourceContent (exec (@prepareClaim sampleJSON ∅ claimA) sampleState)
    = Some (formatLine podName "abc123" +:+ nl) /\
    descriptorContent (exec (@prepareClaim sampleJSON ∅ claimA) sampleState) = Some data.
Proof.
  refine (@prepare_leaves_record_and_descriptor sampleJSON ∅ claimA sampleState _ _
            (mkPrepareResponse
               [mkDevice "default" "file1" ["dra.example.com/file=file1"]] EmptyString)
            _ _ _).
  - vm_compute. reflexivity.
  - vm_compute. reflexivity.
  - discriminate.
Defined.



(** ** The batch of unprepares *)

Lemma unprepareResource_returns claimUID st :
  exists r st', unprepareResource claimUID st = (Ret r, st').
Proof. apply (perform_returns (Unprepare claimUID)). Qed.

Lemma unprepareResource_error_text claimUID st err st' :
  unprepareResource claimUID st = (Ret (Some err), st') ->
  err_Error err <> EmptyString.
Proof.
  destruct st as [d [fs fl]]. rewrite unprepareResource_run.
  destruct (podResources d !! claimUID); [|discriminate]. cbv zeta.
  destruct fl as [|[e|] rest]; cbn [tail];
    try (destruct (fs !! resourceFilePath d));
    try (destruct rest as [|[e'|] rest]);
    try discriminate; intros [= <- _]; apply Errorf_w_nonempty.
Qed.

Lemma unprepareResource_config claimUID st r st' :
  unprepareResource claimUID st = (Ret r, st') ->
  driverName (drv st') = driverName (drv st) /\
  resourceDir (drv st') = resourceDir (drv st).
Proof.
  destruct st as [d [fs fl]]. rewrite unprepareResource_run.
  destruct (podResources d !! claimUID); [|intros [= _ <-]; auto]. cbv zeta.
  destruct fl as [|[e|] rest]; cbn [tail];
    try (destruct (fs !! resourceFilePath d));
    try (destruct rest as [|[e'|] rest]);
    intros [= _ <-]; auto.
Qed.

(** The two ways in which the body of the unprepare loop returns. *)
Lemma unprepareClaim_cases resp claim st :
  (exists err st',
      unprepareResource (Uid claim) st = (Ret (Some err), st') /\
      unprepareClaim resp claim st
      = (Ret (<[Uid claim := mkUnprepareResponse (err_Error err)]> resp), st'))
  \/ (exists st1 r st',
        unprepareResource (Uid claim) st = (Ret None, st1) /\
        deleteCDISpec (Uid claim) st1 = (Ret r, st') /\
        unprepareClaim resp claim st
        = (Ret (<[Uid claim := mkUnprepareResponse EmptyString]> resp), st')).
Proof.
  unfold unprepareClaim, mbind, M_bind.
  destruct (unprepareResource_returns (Uid claim) st) as ([err|] & st1 & Hrun);
    rewrite Hrun.
  - left. eauto.
  - right. destruct (deleteCDISpec_frame (Uid claim) st1) as (r & st' & Hdel & _).
    rewrite Hdel. eauto 10.
Qed.

(** [NodeUnprepareResources] answers every claim, whatever the claims and
    whatever fails: it never panics (a claim without name and with a short
    uid included), and its response holds a result for the requested claim
    ids and for no other. *)
Theorem unprepare_batch_answers_every_claim :
  forall (req : list Claim) (st : State),
    exists resp st',
      NodeUnprepareResources req st = (Ret resp, st') /\
      forall claimUID, is_Some (resp !! claimUID) <-> In claimUID (claimUIDs req).
Proof.
  intros req st. unfold NodeUnprepareResources.
  assert (Hgen : forall resp0,
    exists resp st',
      forClaims unprepareClaim req resp0 st = (Ret resp, st') /\
      forall claimUID,
        is_Some (resp !! claimUID) <->
        is_Some (resp0 !! claimUID) \/ In claimUID (claimUIDs req)).
  { revert st. induction req as [|claim rest IH]; intros st resp0.
    - exists resp0, st. split; [reflexivity|]. cbn. tauto.
    - rewrite forClaims_cons.
      assert (Hstep : exists r st1,
                 unprepareClaim resp0 claim st = (Ret (<[Uid claim := r]> resp0), st1)).
      { destruct (unprepareClaim_cases resp0 claim st)
          as [(err & st1 & _ & ->)|(st1 & r & st2 & _ & _ & ->)]; eauto. }
      destruct Hstep as (r & st1 & ->).
      destruct (IH st1 (<[Uid claim := r]> resp0)) as (resp & st' & -> & Hdom).
      exists resp, st'. split; [reflexivity|].
      intros claimUID. rewrite Hdom, lookup_insert. cbn [claimUIDs List.map In].
      destruct (decide (Uid claim = claimUID)) as [Heq|Hne].
      + split; [auto|]. intros _. left. eauto.
      + fold (claimUIDs rest). tauto. }
  destruct (Hgen ∅) as (resp & st' & Hrun & Hdom).
  exists resp, st'. split; [exact Hrun|].
  intros claimUID. rewrite Hdom, lookup_empty. split; [|auto].
  intros [[x Hx]|Hin]; [discriminate|exact Hin].
Qed.

(** The result of an unprepare is an error exactly when the step on the
    resource file failed.  A failure to delete the descriptor is not
    reported: when [os.Remove] fails, the result is still a success, and
    the descriptor file is still there. *)
Theorem unprepare_reports_resource_step_only :
  forall (resp : gmap string NodeUnprepareResourceResponse) (claim : Claim) (st : State),
    (exists resp' st' r,
        unprepareClaim resp claim st = (Ret resp', st') /\
        resp' !! Uid claim = Some r /\
        (UnprepareError r = EmptyString <->
         exists st1, unprepareResource (Uid claim) st = (Ret None, st1))) /\
    (forall st1 f rest,
        unprepareResource (Uid claim) st = (Ret None, st1) ->
        faults (world st1) = Some f :: rest ->
        unprepareClaim resp claim st
        = (Ret (<[Uid claim := mkUnprepareResponse EmptyString]> resp),
           mkState (drv st1) (mkWorld (files (world st1)) rest))).
Proof.
  intros resp claim st. split.
  - destruct (unprepareClaim_cases resp claim st)
      as [(err & st1 & Hres & ->)|(st1 & r & st2 & Hres & _ & ->)];
      eexists _, _, _; (split; [reflexivity|]); rewrite lookup_insert_eq;
      (split; [reflexivity|]); cbn [UnprepareError].
    + split.
      * intros Hempty. exfalso.
        apply (unprepareResource_error_text _ _ _ _ Hres), Hempty.
      * intros [st1' Hok]. congruence.
    + split; eauto.
  - intros [d1 [fs1 fl1]] f rest Hres Hfl. cbn [world faults] in Hfl. subst fl1.
    unfold unprepareClaim, mbind at 1, M_bind at 1. rewrite Hres.
    unfold mbind, M_bind, deleteCDISpec.
    change (mbind ?f getDriver ?st) with (f (drv st) st). cbv beta.
    unfold mbind, M_bind. rewrite os_Remove_run. destruct f; reflexivity.
Qed.

Lemma unprepare_reports_resource_step_only_witness :
  exists st',
    unprepareClaim ∅ claimA removeDenied
    = (Ret (<["abc123" := mkUnprepareResponse EmptyString]> ∅), st') /\
    descriptorContent st' = descriptorContent removeDenied.
Proof.
  eexists. split.
  - eapply (proj2 (unprepare_reports_resource_step_only ∅ claimA removeDenied)).
    + vm_compute. reflexivity.
    + vm_compute. reflexivity.
  - vm_compute. reflexivity.
Defined.

(** ** The rewrite of the resource file *)

Lemma fileLines_fileOfLines records :
  Forall nonEmpty records -> Forall singleLine records ->
  fileLines (fileOfLines records) = records.
Proof.
  intros Hne Hsl. pose proof (fileLines_Join records Hne Hsl) as Hj. cbv zeta in Hj.
  destruct records as [|x rest]; [reflexivity|].
  unfold fileOfLines. rewrite <- Hj at 2. f_equal.
  assert (Hn : String.eqb (strings_Join (x :: rest) nl) EmptyString = false).
  { apply String.eqb_neq. inversion Hne; subst. apply Join_nonempty. assumption. }
  assert (Hs : strings_HasSuffix (strings_Join (x :: rest) nl) nl = false).
  { destruct (strings_HasSuffix _ nl) eqn:E; [|reflexivity].
    apply HasSuffix_lastByte in E. exfalso. revert E.
    apply lastByte_Join; [discriminate|assumption|assumption]. }
  rewrite Hn, Hs. reflexivity.
Qed.

Lemma fileLines_wellFormed data :
  Forall nonEmpty (fileLines data) /\ Forall singleLine (fileLines data).
Proof.
  unfold fileLines. split; apply List.Forall_forall; intros l Hl;
    apply List.filter_In in Hl as [Hin Hl].
  - apply negb_true_iff, String.eqb_neq in Hl. exact Hl.
  - pose proof (Split_fields_singleLine data) as Hall.
    rewrite List.Forall_forall in Hall. apply Hall, Hin.
Qed.

Lemma Forall_filter_keeps {A} (P : A -> Prop) f (l : list A) :
  Forall P l -> Forall P (List.filter f l).
Proof.
  intros Hall. apply List.Forall_forall. intros x Hx.
  apply List.filter_In in Hx as [Hx _].
  rewrite List.Forall_forall in Hall. apply Hall, Hx.
Qed.

(** What the rewrite writes, for any content of the file: the line
    records of the content other than the search pattern, in their order,
    each closed by a line feed. *)
Lemma rewritten_normal_form searchPattern data :
  rewritten searchPattern data =
  fileOfLines (List.filter (fun line => negb (String.eqb line searchPattern))
                           (fileLines data)).
Proof.
  unfold rewritten.
  assert (Hk : List.filter (keepLine searchPattern) (strings_Split data newline)
               = List.filter (fun line => negb (String.eqb line searchPattern))
                             (fileLines data)).
  { unfold fileLines, keepLine.
    induction (strings_Split data newline) as [|l ls IH]; simpl; [reflexivity|].
    destruct (String.eqb l EmptyString); simpl; [exact IH|].
    destruct (String.eqb l searchPattern); simpl; [exact IH|].
    rewrite IH. reflexivity. }
  rewrite Hk.
  set (kept := List.filter _ (fileLines data)).
  assert (Hne : Forall nonEmpty kept)
    by (apply Forall_filter_keeps, fileLines_wellFormed).
  assert (Hsl : Forall singleLine kept)
    by (apply Forall_filter_keeps, fileLines_wellFormed).
  destruct kept as [|x rest]; [reflexivity|]. unfold fileOfLines.
  assert (Hn : String.eqb (strings_Join (x :: rest) nl) EmptyString = false).
  { apply String.eqb_neq. inversion Hne; subst. apply Join_nonempty. assumption. }
  assert (Hs : strings_HasSuffix (strings_Join (x :: rest) nl) nl = false).
  { destruct (strings_HasSuffix _ nl) eqn:E; [|reflexivity].
    apply HasSuffix_lastByte in E. exfalso. revert E.
    apply lastByte_Join; [discriminate|assumption|assumption]. }
  rewrite Hn, Hs. reflexivity.
Qed.

Lemma filter_filter_swap {A} (f g : A -> bool) (l : list A) :
  List.filter f (List.filter g l) = List.filter g (List.filter f l).
Proof.
  induction l as [|x l IH]; [reflexivity|]. cbn [List.filter].
  destruct (f x) eqn:Hf, (g x) eqn:Hg; cbn [List.filter];
    rewrite ?Hf, ?Hg, IH; reflexivity.
Qed.

Lemma rewritten_swap p q data :
  rewritten p (rewritten q data) = rewritten q (rewritten p data).
Proof.
  rewrite !rewritten_normal_form.
  destruct (fileLines_wellFormed data) as [Hne Hsl].
  rewrite !fileLines_fileOfLines by (apply Forall_filter_keeps; assumption).
  f_equal. apply filter_filter_swap.
Qed.

(** An unprepare that rewrites the resource file writes a file in normal
    form, whatever the file held (blank lines, a missing final line feed,
    records of other claims): the line records other than the record of
    its claim, in their order, each closed by a line feed. *)
Theorem unprepare_writes_normal_form :
  forall (st st' : State) (claimUID podName data : string),
    podResources (drv st) !! claimUID = Some podName ->
    resourceContent st = Some data ->
    unprepareResource claimUID st = (Ret None, st') ->
    resourceContent st'
    = Some (fileOfLines
              (List.filter
                 (fun line => negb (String.eqb line (formatLine podName claimUID)))
                 (fileLines data))).
Proof.
  intros st st' claimUID podName data Hpod Hdata Hrun.
  destruct (unprepareResource_removes_line _ _ _ _ _ Hpod Hdata Hrun) as (_ & -> & _).
  rewrite rewritten_normal_form. reflexivity.
Qed.

Lemma unprepare_writes_normal_form_witness :
  resourceContent (exec (unprepareResource "abc123") untidyFile)
  = Some ("somebody else" +:+ nl +:+ "pod-using-claim-B (claim: def456)" +:+ nl).
Proof.
  refine (unprepare_writes_normal_form untidyFile _ "abc123" "pod-using-claim-A"
            (nl +:+ "pod-using-claim-A (claim: abc123)" +:+ nl +:+ nl
             +:+ "somebody else" +:+ nl
             +:+ "pod-using-claim-B (claim: def456)") _ _ _).
  - vm_compute. reflexivity.
  - vm_compute. reflexivity.
  - vm_compute. reflexivity.
Defined.

Lemma unprepare_tracked_run claimUID podName data d fs fl :
  Forall (eq None) fl ->
  podResources d !! claimUID = Some podName ->
  fs !! resourceFilePath d = Some data ->
  unprepareResource claimUID (mkState d (mkWorld fs fl))
  = (Ret None,
     mkState (withPodResources d (delete claimUID (podResources d)))
       (mkWorld (<[resourceFilePath d := rewritten (formatLine podName claimUID) data]> fs)
                (tail (tail fl)))).
Proof.
  intros Hfl Hpod Hdata. rewrite unprepareResource_run, Hpod. cbv zeta.
  destruct fl as [|f rest]; cbn [tail]; [rewrite Hdata; reflexivity|].
  inversion Hfl as [|? ? <- Hrest]; subst. rewrite Hdata.
  destruct rest as [|f rest]; [reflexivity|].
  inversion Hrest as [|? ? <- _]; subst. reflexivity.
Qed.

(** Two unprepares commute.  When the resource file exists and no failure
    is scheduled, unpreparing two tracked claims in one order or the other
    leaves the same DeviceRecord, without the two claim ids, and the same
    files, byte for byte. *)
Theorem unprepares_commute :
  forall (st : State) (uid1 uid2 pod1 pod2 data : string),
    noFaults st ->
    uid1 <> uid2 ->
    podResources (drv st) !! uid1 = Some pod1 ->
    podResources (drv st) !! uid2 = Some pod2 ->
    resourceContent st = Some data ->
    exec (unprepareResource uid2) (exec (unprepareResource uid1) st)
    = exec (unprepareResource uid1) (exec (unprepareResource uid2) st) /\
    podResources (drv (exec (unprepareResource uid2) (exec (unprepareResource uid1) st)))
    = delete uid2 (delete uid1 (podResources (drv st))).
Proof.
  intros [d [fs fl]] uid1 uid2 pod1 pod2 data Hnf Hne H1 H2 Hdata.
  unfold noFaults, resourceContent in *. cbn [drv world files faults] in *.
  assert (Htail : Forall (eq None) (tail (tail fl))).
  { destruct fl as [|f [|g rest]]; cbn; auto.
    inversion Hnf as [|? ? _ Hr]; subst. inversion Hr; subst. assumption. }
  unfold exec.
  rewrite (unprepare_tracked_run uid1 pod1 data d fs fl Hnf H1 Hdata).
  rewrite (unprepare_tracked_run uid2 pod2 data d fs fl Hnf H2 Hdata). cbn [snd].
  rewrite (unprepare_tracked_run uid2 pod2 (rewritten (formatLine pod1 uid1) data));
    [|exact Htail
     |cbn [podResources withPodResources]; rewrite lookup_delete_ne by exact Hne;
      exact H2
     |apply lookup_insert_eq].
  rewrite (unprepare_tracked_run uid1 pod1 (rewritten (formatLine pod2 uid2) data));
    [|exact Htail
     |cbn [podResources withPodResources];
      rewrite lookup_delete_ne by (intros Heq; apply Hne; symmetry; exact Heq);
      exact H1
     |apply lookup_insert_eq].
  cbn [snd drv podResources withPodResources driverName nodeName pluginSocket resourceDir].
  change (resourceFilePath (withPodResources d ?m)) with (resourceFilePath d).
  rewrite !insert_insert_eq, rewritten_swap.
  split; [|reflexivity].
  unfold withPodResources. cbn [driverName nodeName pluginSocket resourceDir].
  rewrite (delete_delete _ uid2 uid1). reflexivity.
Qed.

Lemma unprepares_commute_witness :
  exec (unprepareResource "def456") (exec (unprepareResource "abc123") untidyFile)
  = exec (unprepareResource "abc123") (exec (unprepareResource "def456") untidyFile).
Proof.
  refine (proj1 (unprepares_commute untidyFile "abc123" "def456"
                   "pod-using-claim-A" "pod-using-claim-B"
                   (nl +:+ "pod-using-claim-A (claim: abc123)" +:+ nl +:+ nl
                    +:+ "somebody else" +:+ nl
                    +:+ "pod-using-claim-B (claim: def456)") _ _ _ _ _)).
  - constructor.
  - discriminate.
  - vm_compute. reflexivity.
  - vm_compute. reflexivity.
  - vm_compute. reflexivity.
Defined.

(** ** A batch prepared, then unprepared *)

Lemma singleLine_substring s n m : singleLine s -> singleLine (substring n m s).
Proof.
  unfold singleLine. revert n m. induction s as [|c s IH]; intros n m Hs.
  - destruct n, m; reflexivity.
  - cbn in Hs. apply orb_false_iff in Hs as [Hc Hs].
    destruct n as [|n]; cbn [substring].
    + destruct m as [|m]; [reflexivity|]. cbn. rewrite Hc. apply IH, Hs.
    + apply IH, Hs.
Qed.

Lemma extractPodName_singleLine claim st podName st' :
  plainClaim claim ->
  extractPodName claim st = (Ret podName, st') ->
  singleLine podName.
Proof.
  intros [Huid Hname]. unfold extractPodName, slice_to.
  destruct (negb (String.eqb (Name claim) EmptyString)).
  - intros [= <- _]. unfold singleLine. rewrite occurs_app.
    unfold singleLine in Hname. rewrite Hname. reflexivity.
  - destruct (Nat.leb 8 (String.length (Uid claim))); [|discriminate].
    intros [= <- _]. unfold singleLine. rewrite occurs_app.
    rewrite (singleLine_substring _ 0 8 Huid). reflexivity.
Qed.

Lemma noFaults_tail d fs fl d' fs' :
  noFaults (mkState d (mkWorld fs fl)) -> noFaults (mkState d' (mkWorld fs' (tail fl))).
Proof.
  unfold noFaults. cbn [world faults]. intros Hnf.
  destruct fl as [|f rest]; [exact Hnf|]. inversion Hnf; assumption.
Qed.

Lemma createCDISpec_noFaults `{JSON} claimUID st :
  noFaults st ->
  exists r st', createCDISpec claimUID st = (Ret r, st') /\ noFaults st'.
Proof.
  destruct st as [d [fs fl]]. intros Hnf. rewrite createCDISpec_run.
  assert (H1 : forall fs', noFaults (mkState d (mkWorld fs' (tail fl))))
    by (intros fs'; eapply noFaults_tail, Hnf).
  assert (H2 : forall fs', noFaults (mkState d (mkWorld fs' (tail (tail fl)))))
    by (intros fs'; eapply noFaults_tail, (H1 fs)).
  destruct fl as [|[e|] rest]; cbn [tail] in *.
  - destruct (json_MarshalIndent (cdiSpecOf d) EmptyString "  "); eauto.
  - inversion Hnf; discriminate.
  - destruct (json_MarshalIndent (cdiSpecOf d) EmptyString "  "); [|eauto].
    destruct rest as [|[e|] rest]; cbn [tail] in *; eauto.
Qed.

Lemma settled_frame st st' :
  settled st -> noFaults st' ->
  drv st' = drv st ->
  (forall path, path <> cdiFilePath (drv st) ->
                files (world st') !! path = files (world st) !! path) ->
  settled st' /\ resourceContent st' = resourceContent st.
Proof.
  intros (Hkept & Hcons & _) Hnf Hdrv Hframe.
  assert (Hres : resourceContent st' = resourceContent st).
  { unfold resourceContent. rewrite Hdrv. apply Hframe, paths_differ. }
  split; [|exact Hres]. split; [|split; [|exact Hnf]].
  - intros uid. rewrite Hres, Hdrv. apply Hkept.
  - unfold consistent in *. rewrite Hres, Hdrv. exact Hcons.
Qed.

(** One step of the prepare loop when nothing fails. *)
Lemma prepareClaim_settled `{JSON} resp claim st :
  sliceable claim -> plainClaim claim -> settled st ->
  exists resp' st',
    prepareClaim resp claim st = (Ret resp', st') /\
    settled st' /\
    is_Some (resourceContent st') /\
    (forall uid, is_Some (podResources (drv st') !! uid) <->
                 uid = Uid claim \/ is_Some (podResources (drv st) !! uid)).
Proof.
  intros Hs Hplain (Hkept & Hcons & Hnf).
  destruct (sliceable_returns claim st Hs) as [podName Hpod].
  pose proof (extractPodName_singleLine _ _ _ _ Hplain Hpod) as Hline.
  destruct (prepareResource_noFaults (Uid claim) podName st Hnf) as (st1 & Hprep & Hnf1).
  assert (Hcons1 : consistent st1).
  { apply (perform_consistent (Prepare (Uid claim) podName) st None st1);
      [apply noFaults_wholeWrites, Hnf|split; [apply Hplain|exact Hline]
      |exact Hcons|exact Hprep]. }
  pose proof (prepareResource_overwrites _ _ _ _ Hprep) as [Hfile Hpods].
  assert (Hset1 : settled st1).
  { split; [|split; assumption]. intros uid _. rewrite Hfile. eauto. }
  destruct (createCDISpec_noFaults (Uid claim) st1 Hnf1) as (r & st2 & Hcdi & Hnf2).
  destruct (createCDISpec_frame (Uid claim) st1) as (r' & st2' & Hcdi' & Hdrv & Hframe).
  rewrite Hcdi in Hcdi'. injection Hcdi' as <- <-.
  destruct (settled_frame st1 st2 Hset1 Hnf2 Hdrv Hframe) as [Hset2 Hres].
  assert (Hrun : exists resp', prepareClaim resp claim st = (Ret resp', st2)).
  { unfold prepareClaim, mbind at 1, M_bind at 1. rewrite Hpod.
    unfold mbind at 1, M_bind at 1. rewrite Hprep.
    change (mbind ?f getDriver ?st) with (f (drv st) st). cbv beta.
    unfold mbind, M_bind. rewrite Hcdi. destruct r; eauto. }
  destruct Hrun as [resp' Hrun]. exists resp', st2.
  split; [exact Hrun|]. split; [exact Hset2|]. split.
  - rewrite Hres, Hfile. eauto.
  - intros uid. rewrite Hdrv, Hpods, lookup_insert.
    destruct (decide (Uid claim = uid)) as [->|Hne]; [split; eauto|].
    split; [auto|]. intros [->|Hsome]; [contradiction|exact Hsome].
Qed.

(** One step of the unprepare loop when nothing fails. *)
Lemma unprepareClaim_settled resp claim st :
  settled st ->
  exists st',
    unprepareClaim resp claim st
    = (Ret (<[Uid claim := mkUnprepareResponse EmptyString]> resp), st') /\
    settled st' /\
    descriptorContent st' = None /\
    (is_Some (resourceContent st) -> is_Some (resourceContent st')) /\
    podResources (drv st') = delete (Uid claim) (podResources (drv st)).
Proof.
  intros (Hkept & Hcons & Hnf).
  destruct (unprepareResource_noFaults (Uid claim) st Hnf) as (st1 & Hres & Hnf1).
  destruct (deleteCDISpec_noFaults (Uid claim) st1 Hnf1) as (st2 & Hdel & Hnf2).
  exists st2. split.
  { unfold unprepareClaim, mbind, M_bind. rewrite Hres, Hdel. reflexivity. }
  assert (Hcons1 : consistent st1).
  { apply (perform_consistent (Unprepare (Uid claim)) st None st1);
      [apply noFaults_wholeWrites, Hnf|exact I|exact Hcons|exact Hres]. }
  assert (H1 : fileKept st1 /\
               (is_Some (resourceContent st) -> is_Some (resourceContent st1)) /\
               podResources (drv st1) = delete (Uid claim) (podResources (drv st))).
  { apply unprepareResource_success in Hres
      as [[Hno ->]|[((podName & Hpod) & Hmiss & _)
                   |[(podName & data & Hpod & Hdata & Hnew) Hdelete]]].
    - split; [exact Hkept|]. split; [auto|]. symmetry. apply delete_id, Hno.
    - exfalso. destruct (Hkept (Uid claim)) as [x Hx]; [eauto|]. congruence.
    - split; [intros uid _; rewrite Hnew; eauto|].
      split; [intros _; rewrite Hnew; eauto|exact Hdelete]. }
  destruct H1 as (Hkept1 & Hexists & Hpods).
  destruct (deleteCDISpec_frame (Uid claim) st1) as (r & st2' & Hdel' & Hdrv & Hframe).
  rewrite Hdel in Hdel'. injection Hdel' as <- <-.
  destruct (settled_frame st1 st2 (conj Hkept1 (conj Hcons1 Hnf1)) Hnf2 Hdrv Hframe)
    as [Hset2 Hsame].
  split; [exact Hset2|]. split; [apply (deleteCDISpec_success _ _ _ Hdel)|].
  split; [rewrite Hsame; exact Hexists|]. rewrite Hdrv. exact Hpods.
Qed.

Lemma prepare_batch_settled `{JSON} req resp st :
  Forall sliceable req -> Forall plainClaim req -> settled st ->
  exists resp' st',
    forClaims prepareClaim req resp st = (Ret resp', st') /\
    settled st' /\
    (req <> [] -> is_Some (resourceContent st')) /\
    (forall uid, is_Some (podResources (drv st') !! uid) <->
                 In uid (claimUIDs req) \/ is_Some (podResources (drv st) !! uid)).
Proof.
  intros Hs. revert resp st.
  induction Hs as [|claim rest Hclaim _ IH]; intros resp st Hplain Hset.
  - exists resp, st. split; [reflexivity|]. split; [exact Hset|].
    split; [congruence|]. cbn. tauto.
  - inversion Hplain as [|? ? Hp Hprest]; subst.
    destruct (prepareClaim_settled resp claim st Hclaim Hp Hset)
      as (resp1 & st1 & Hrun & Hset1 & Hfile & Hpods).
    destruct (IH resp1 st1 Hprest Hset1) as (resp' & st' & Hrest & Hset' & Hfile' & Hpods').
    exists resp', st'. rewrite forClaims_cons, Hrun. split; [exact Hrest|].
    split; [exact Hset'|]. split.
    + intros _. destruct rest as [|c rest'].
      * injection Hrest as _ <-. exact Hfile.
      * apply Hfile'. discriminate.
    + intros uid. rewrite Hpods', Hpods. cbn [claimUIDs List.map In].
      fold (claimUIDs rest). split; [intros [?|[->|?]]|intros [[<-|?]|?]]; auto.
Qed.

Lemma unprepare_batch_settled req resp st :
  settled st ->
  exists resp' st',
    forClaims unprepareClaim req resp st = (Ret resp', st') /\
    settled st' /\
    (req <> [] -> descriptorContent st' = None) /\
    (is_Some (resourceContent st) -> is_Some (resourceContent st')) /\
    (forall uid, In uid (claimUIDs req) ->
                 resp' !! uid = Some (mkUnprepareResponse EmptyString) /\
                 podResources (drv st') !! uid = None) /\
    (forall uid, ~ In uid (claimUIDs req) ->
                 resp' !! uid = resp !! uid /\
                 podResources (drv st') !! uid = podResources (drv st) !! uid).
Proof.
  revert resp st. induction req as [|claim rest IH]; intros resp st Hset.
  - exists resp, st. split; [reflexivity|]. split; [exact Hset|].
    split; [congruence|]. split; [auto|]. split; [intros uid []|auto].
  - destruct (unprepareClaim_settled resp claim st Hset)
      as (st1 & Hrun & Hset1 & Hdesc & Hfile & Hpods).
    destruct (IH (<[Uid claim := mkUnprepareResponse EmptyString]> resp) st1 Hset1)
      as (resp' & st' & Hrest & Hset' & Hdesc' & Hfile' & Hin' & Hout').
    exists resp', st'. rewrite forClaims_cons, Hrun. split; [exact Hrest|].
    split; [exact Hset'|]. split; [|split; [auto|split]].
    + intros _. destruct rest as [|c rest'].
      * injection Hrest as _ <-. exact Hdesc.
      * apply Hdesc'. discriminate.
    + intros uid Hin.
      destruct (List.in_dec String.string_dec uid (claimUIDs rest)) as [Hr|Hr];
        [apply Hin', Hr|].
      destruct Hin as [<-|Hin]; [|contradiction].
      destruct (Hout' _ Hr) as [-> ->].
      rewrite lookup_insert_eq, Hpods, lookup_delete_eq. auto.
    + intros uid Hnot. cbn [claimUIDs List.map In] in Hnot.
      destruct (Hout' uid) as [-> ->]; [tauto|].
      rewrite Hpods, lookup_insert_ne, lookup_delete_ne by tauto. auto.
Qed.

(** A batch that is prepared and then unprepared leaves no trace.  From a
    fresh driver on a node without resource file, when no failure is
    scheduled, for claims that can be labelled and hold no line feed:
    both handlers return, every claim is unprepared with success,
    DeviceRecord is empty again, the resource file is empty and the
    descriptor is gone. *)
Theorem batch_round_trip `{JSON} :
  forall (req : list Claim) (st : State),
    req <> [] ->
    fresh st -> noFaults st ->
    Forall sliceable req -> Forall plainClaim req ->
    exists resp1 st1 resp2 st2,
      NodePrepareResources req st = (Ret resp1, st1) /\
      NodeUnprepareResources req st1 = (Ret resp2, st2) /\
      (forall uid, In uid (claimUIDs req) ->
                   is_Some (podResources (drv st1) !! uid) /\
                   resp2 !! uid = Some (mkUnprepareResponse EmptyString)) /\
      podResources (drv st2) = ∅ /\
      resourceContent st2 = Some EmptyString /\
      descriptorContent st2 = None.
Proof.
  intros req st Hreq Hfresh Hnf Hs Hplain.
  assert (Hset : settled st).
  { split; [|split; [apply fresh_consistent, Hfresh|exact Hnf]].
    intros uid. destruct Hfresh as [-> _]. rewrite lookup_empty.
    intros [x Hx]. discriminate. }
  destruct (prepare_batch_settled req ∅ st Hs Hplain Hset)
    as (resp1 & st1 & Hrun1 & Hset1 & Hfile1 & Hpods1).
  destruct (unprepare_batch_settled req ∅ st1 Hset1)
    as (resp2 & st2 & Hrun2 & Hset2 & Hdesc2 & Hfile2 & Hin2 & Hout2).
  exists resp1, st1, resp2, st2. split; [exact Hrun1|]. split; [exact Hrun2|].
  assert (Hempty : podResources (drv st2) = ∅).
  { apply map_empty. intros uid.
    destruct (List.in_dec String.string_dec uid (claimUIDs req)) as [Hin|Hin].
    - apply Hin2, Hin.
    - destruct (Hout2 uid Hin) as [_ ->].
      destruct (podResources (drv st1) !! uid) eqn:E; [|reflexivity].
      exfalso. assert (Hsome : is_Some (podResources (drv st1) !! uid)) by eauto.
      apply Hpods1 in Hsome as [Hin'|Hold]; [contradiction|].
      destruct Hfresh as [Hf _]. rewrite Hf, lookup_empty in Hold.
      destruct Hold as [x Hx]. discriminate. }
  split; [|split; [exact Hempty|split; [|apply Hdesc2, Hreq]]].
  - intros uid Hin. split; [apply Hpods1; left; exact Hin|apply Hin2, Hin].
  - destruct Hset2 as (_ & Hcons2 & _). unfold consistent in Hcons2.
    destruct (Hfile2 (Hfile1 Hreq)) as [content Hcontent].
    rewrite Hcontent in Hcons2 |- *.
    destruct Hcons2 as [->|(uid & pod & Hl & _)]; [reflexivity|].
    rewrite Hempty, lookup_empty in Hl. discriminate.
Qed.

Lemma batch_round_trip_witness :
  exists resp1 st1 resp2 st2,
    @NodePrepareResources sampleJSON [claimA; claimB] sampleState = (Ret resp1, st1) /\
    NodeUnprepareResources [claimA; claimB] st1 = (Ret resp2, st2) /\
    (forall uid, In uid (claimUIDs [claimA; claimB]) ->
                 is_Some (podResources (drv st1) !! uid) /\
                 resp2 !! uid = Some (mkUnprepareResponse EmptyString)) /\
    podResources (drv st2) = ∅ /\
    resourceContent st2 = Some EmptyString /\
    descriptorContent st2 = None.
Proof.
  apply (@batch_round_trip sampleJSON [claimA; claimB] sampleState).
  - discriminate.
  - split; reflexivity.
  - constructor.
  - repeat constructor; discriminate.
  - repeat constructor.
Defined.

(** ** The publishing loop *)

Lemma publishingLoop_log {B} `{Publisher.ResourceSliceInterface B} p events (b : B) log1 log2 :
  Publisher.returned (Publisher.publishingLoop p events b log1)
  = Publisher.returned (Publisher.publishingLoop p events b log2) /\
  Publisher.server (Publisher.publishingLoop p events b log1)
  = Publisher.server (Publisher.publishingLoop p events b log2).
Proof.
  revert b log1 log2. induction events as [|[|] rest IH]; intros b log1 log2;
    cbn [Publisher.publishingLoop].
  - split; reflexivity.
  - destruct (Publisher.PublishResources p b) as [r b']. apply IH.
  - destruct (Publisher.UnpublishResources p b) as [r b']. split; reflexivity.
Qed.

Lemma publishingLoop_ticks {B} `{Publisher.ResourceSliceInterface B} p n events (b : B) log :
  exists log',
    Publisher.publishingLoop p (repeat Publisher.Tick n ++ events) b log
    = Publisher.publishingLoop p events
        (Nat.iter n (fun b => snd (Publisher.PublishResources p b)) b) log'.
Proof.
  revert b log. induction n as [|n IH]; intros b log; [eauto|].
  cbn [repeat app Publisher.publishingLoop].
  destruct (Publisher.PublishResources p b) as [r b'] eqn:E.
  destruct (IH b' (Publisher.logFailure "Failed to refresh resources: " r log))
    as [log' ->].
  exists log'. rewrite Nat.iter_succ_r, E. reflexivity.
Qed.

Lemma publishing_loop_parts :
  forall (B : Type) (client : Publisher.ResourceSliceInterface B)
         (p : Publisher.ResourcePublisher) (n : nat) (later : list Publisher.event)
         (b : B),
    let publish := fun b => snd (Publisher.PublishResources p b) in
    (Publisher.returned (Publisher.StartPublishing p (repeat Publisher.Tick n) b) = false /\
     Publisher.server (Publisher.StartPublishing p (repeat Publisher.Tick n) b)
     = Nat.iter (S n) publish b) /\
    (Publisher.returned
       (Publisher.StartPublishing p (repeat Publisher.Tick n ++ Publisher.Done :: later) b)
     = true /\
     Publisher.server
       (Publisher.StartPublishing p (repeat Publisher.Tick n ++ Publisher.Done :: later) b)
     = snd (Publisher.UnpublishResources p (Nat.iter (S n) publish b))).
Proof.
  intros B client p n later b publish. unfold Publisher.StartPublishing.
  destruct (Publisher.PublishResources p b) as [r b'] eqn:E.
  assert (Hiter : Nat.iter (S n) publish b = Nat.iter n publish b').
  { rewrite Nat.iter_succ_r. unfold publish at 2. rewrite E. reflexivity. }
  rewrite Hiter. split.
  - destruct (publishingLoop_ticks p n [] b'
                (Publisher.logFailure "Failed to publish resources: " r []))
      as [log' Hloop].
    rewrite app_nil_r in Hloop. rewrite Hloop. split; reflexivity.
  - destruct (publishingLoop_ticks p n (Publisher.Done :: later) b'
                (Publisher.logFailure "Failed to publish resources: " r []))
      as [log' ->].
    cbn [Publisher.publishingLoop]. unfold publish.
    destruct (Publisher.UnpublishResources p _) as [r' b''].
    split; reflexivity.
Qed.

(** The publishing loop, for any API client.  It publishes once when it
    starts and once more at every tick, whether the publishes before
    failed or not, and it does not return while the context is not done.
    When the context is done it unpublishes once and returns, and the
    events after that no longer matter. *)
Theorem publishing_loop_composes :
  forall (B : Type) (client : Publisher.ResourceSliceInterface B)
         (p : Publisher.ResourcePublisher) (n : nat) (later : list Publisher.event)
         (b : B),
    let publish := fun b => snd (Publisher.PublishResources p b) in
    (Publisher.returned (Publisher.StartPublishing p (repeat Publisher.Tick n) b) = false /\
     Publisher.server (Publisher.StartPublishing p (repeat Publisher.Tick n) b)
     = Nat.iter (S n) publish b) /\
    (Publisher.returned
       (Publisher.StartPublishing p (repeat Publisher.Tick n ++ Publisher.Done :: later) b)
     = true /\
     Publisher.server
       (Publisher.StartPublishing p (repeat Publisher.Tick n ++ Publisher.Done :: later) b)
     = snd (Publisher.UnpublishResources p (Nat.iter (S n) publish b))).
Proof. exact publishing_loop_parts. Qed.

(** ** The publisher against an API server that works *)

Lemma broker_publish_healthy p b :
  Publisher.apiFaults b = [] ->
  Publisher.PublishResources p b
  = (None,
     Publisher.mkBroker
       (<[Publisher.sliceNameOf p :=
            Publisher.withResourceVersion (Publisher.sliceOf p)
              (Publisher.versionString (S (Publisher.revision b)))]>
          (Publisher.slices b))
       (S (Publisher.revision b)) []).
Proof.
  destruct b as [sl rev fl]. cbn [Publisher.apiFaults Publisher.slices Publisher.revision].
  intros ->. unfold Publisher.PublishResources.
  cbn [Publisher.Create Publisher.Get Publisher.Update Publisher.brokerClient].
  unfold Publisher.brokerCreate at 1, Publisher.popApiFault.
  cbn [Publisher.apiFaults Publisher.slices Publisher.sliceName Publisher.sliceOf].
  destruct (sl !! Publisher.sliceNameOf p) as [existing|] eqn:Hex.
  - unfold Publisher.brokerGet, Publisher.popApiFault.
    cbn [Publisher.apiFaults Publisher.slices]. rewrite Hex.
    unfold Publisher.brokerUpdate, Publisher.popApiFault, Publisher.store.
    cbn [Publisher.apiFaults Publisher.slices Publisher.sliceName Publisher.sliceOf
         Publisher.withResourceVersion Publisher.ResourceVersion Publisher.revision].
    rewrite Hex, String.eqb_refl. reflexivity.
  - reflexivity.
Qed.

Lemma broker_unpublish_healthy p b :
  Publisher.apiFaults b = [] ->
  is_Some (Publisher.slices b !! Publisher.sliceNameOf p) ->
  Publisher.UnpublishResources p b
  = (None,
     Publisher.mkBroker (delete (Publisher.sliceNameOf p) (Publisher.slices b))
                        (Publisher.revision b) []).
Proof.
  destruct b as [sl rev fl]. cbn [Publisher.apiFaults Publisher.slices Publisher.revision].
  intros -> [s Hs]. unfold Publisher.UnpublishResources.
  cbn [Publisher.Delete Publisher.brokerClient].
  unfold Publisher.brokerDelete, Publisher.popApiFault.
  cbn [Publisher.apiFaults Publisher.slices Publisher.revision]. rewrite Hs. reflexivity.
Qed.

Lemma broker_publish_iter p b n :
  Publisher.apiFaults b = [] ->
  Nat.iter (S n) (fun b => snd (Publisher.PublishResources p b)) b
  = Publisher.mkBroker
      (<[Publisher.sliceNameOf p :=
           Publisher.withResourceVersion (Publisher.sliceOf p)
             (Publisher.versionString (S n + Publisher.revision b))]>
         (Publisher.slices b))
      (S n + Publisher.revision b) [].
Proof.
  intros Hb. induction n as [|n IH].
  - cbn [Nat.iter nat_rect]. rewrite broker_publish_healthy by exact Hb. reflexivity.
  - rewrite Nat.iter_succ, IH, broker_publish_healthy by reflexivity.
    cbn [snd Publisher.slices Publisher.revision]. rewrite insert_insert_eq.
    reflexivity.
Qed.

(** The publisher against an API server that works (it stores what is
    created, refuses a second creation, updates under the stored resource
    version, and deletes).  While the loop runs, the server holds under
    the key [<node>-<driver>] the one record the publisher builds, with
    its one device, whatever it held under this key before, and every
    other record is untouched.  When the context is done the loop returns
    and the record is gone. *)
Theorem inventory_published_then_retracted :
  forall (p : Publisher.ResourcePublisher) (b : Publisher.Broker) (n : nat)
         (later : list Publisher.event),
    Publisher.apiFaults b = [] ->
    (let running := Publisher.StartPublishing p (repeat Publisher.Tick n) b in
     Publisher.returned running = false /\
     Publisher.slices (Publisher.server running)
     = <[Publisher.sliceNameOf p :=
           Publisher.withResourceVersion (Publisher.sliceOf p)
             (Publisher.versionString (S n + Publisher.revision b))]>
         (Publisher.slices b) /\
     length (Publisher.sliceDevices (Publisher.sliceOf p)) = 1) /\
    (let stopped :=
       Publisher.StartPublishing p (repeat Publisher.Tick n ++ Publisher.Done :: later) b in
     Publisher.returned stopped = true /\
     Publisher.slices (Publisher.server stopped)
     = delete (Publisher.sliceNameOf p) (Publisher.slices b)).
Proof.
  intros p b n later Hb. cbv zeta.
  destruct (publishing_loop_parts Publisher.Broker Publisher.brokerClient p n later b)
    as [[Hr1 Hs1] [Hr2 Hs2]].
  rewrite Hr1, Hs1, Hr2, Hs2, broker_publish_iter by exact Hb.
  split; [split; [reflexivity|split; reflexivity]|]. split; [reflexivity|].
  rewrite broker_unpublish_healthy;
    [|reflexivity|cbn [Publisher.slices]; rewrite lookup_insert_eq; eauto].
  cbn [snd Publisher.slices]. apply delete_insert_eq.
Qed.

Lemma inventory_published_then_retracted_witness :
  Publisher.slices
    (Publisher.server
       (Publisher.StartPublishing samplePublisher
          [Publisher.Tick; Publisher.Tick; Publisher.Done] emptyBroker))
  = ∅.
Proof.
  pose proof (proj2 (proj2 (inventory_published_then_retracted samplePublisher
                              emptyBroker 2 [] eq_refl))) as Hgone.
  cbn [repeat app] in Hgone. rewrite Hgone. reflexivity.
Defined.

(** ** A prepare that is repeated *)

Lemma prepareResource_success_state claimUID podName st st' :
  prepareResource claimUID podName st = (Ret None, st') ->
  drv st' = withPodResources (drv st) (<[claimUID := podName]> (podResources (drv st))) /\
  files (world st')
  = <[resourceFilePath (drv st) := formatLine podName claimUID +:+ nl]> (files (world st)).
Proof.
  destruct st as [d [fs fl]]. rewrite prepareResource_run.
  destruct fl as [|[e|] rest]; [|discriminate|]; intros [= <-]; auto.
Qed.

Lemma createCDISpec_success_state `{JSON} claimUID st st' :
  createCDISpec claimUID st = (Ret None, st') ->
  exists data,
    json_MarshalIndent (cdiSpecOf (drv st)) EmptyString "  " = Ok data /\
    drv st' = drv st /\
    files (world st') = <[cdiFilePath (drv st) := data]> (files (world st)).
Proof.
  destruct st as [d [fs fl]]. rewrite createCDISpec_run. cbn [drv world files].
  destruct fl as [|[e|] rest]; [|discriminate|]; cbn [tail];
    (destruct (json_MarshalIndent (cdiSpecOf d) EmptyString "  ") as [data|err];
       [|discriminate]).
  - intros [= <-]. eauto.
  - destruct rest as [|[e|] rest]; [|discriminate|]; intros [= <-]; eauto.
Qed.

Lemma prepareClaim_success_state `{JSON} resp claim st resp' st' r :
  prepareClaim resp claim st = (Ret resp', st') ->
  resp' !! Uid claim = Some r ->
  Devices r <> [] ->
  exists podName data,
    extractPodName claim st = (Ret podName, st) /\
    json_MarshalIndent (cdiSpecOf (drv st)) EmptyString "  " = Ok data /\
    r = prepared (drv st) /\
    drv st'
    = withPodResources (drv st) (<[Uid claim := podName]> (podResources (drv st))) /\
    files (world st')
    = <[cdiFilePath (drv st) := data]>
        (<[resourceFilePath (drv st) := formatLine podName (Uid claim) +:+ nl]>
           (files (world st))).
Proof.
  intros Hrun Hr Hdev.
  destruct (prepareClaim_cases _ _ _ _ _ Hrun)
    as (podName & Hpod & [(err & _ & ->)
                         |[(st1 & err & _ & _ & ->)|(st1 & Hprep & Hcdi & ->)]]);
    rewrite lookup_insert_eq in Hr; injection Hr as <-;
    try (contradiction Hdev; reflexivity).
  apply prepareResource_success_state in Hprep as [Hd1 Hf1].
  apply createCDISpec_success_state in Hcdi as (data & Hjson & Hd2 & Hf2).
  exists podName, data. rewrite Hd2, Hf2, Hd1, Hf1 in *.
  repeat split; try reflexivity; [exact Hpod|exact Hjson].
Qed.

(** A prepare can be repeated.  When the prepare of a claim has succeeded
    and is called again (the node agent retries), and succeeds again, the
    second call returns the same devices and leaves DeviceRecord and the
    files exactly as the first call left them. *)
Theorem prepare_retry_changes_nothing `{JSON} :
  forall resp claim st resp1 st1 r1 resp2 st2 r2,
    prepareClaim resp claim st = (Ret resp1, st1) ->
    resp1 !! Uid claim = Some r1 -> Devices r1 <> [] ->
    prepareClaim resp1 claim st1 = (Ret resp2, st2) ->
    resp2 !! Uid claim = Some r2 -> Devices r2 <> [] ->
    r2 = r1 /\ resp2 = resp1 /\
    drv st2 = drv st1 /\ files (world st2) = files (world st1).
Proof.
  intros resp claim st resp1 st1 r1 resp2 st2 r2 Hrun1 Hr1 Hdev1 Hrun2 Hr2 Hdev2.
  destruct (prepareClaim_success_state _ _ _ _ _ _ Hrun1 Hr1 Hdev1)
    as (pod1 & data1 & Hpod1 & Hjson1 & -> & Hd1 & Hf1).
  destruct (prepareClaim_success_state _ _ _ _ _ _ Hrun2 Hr2 Hdev2)
    as (pod2 & data2 & Hpod2 & Hjson2 & -> & Hd2 & Hf2).
  assert (pod2 = pod1) as ->.
  { destruct (string_dec (Name claim) EmptyString) as [Hn|Hn].
    - rewrite extractPodName_unnamed in Hpod1, Hpod2 by exact Hn.
      destruct (Nat.leb 8 (String.length (Uid claim))); congruence.
    - rewrite extractPodName_named in Hpod1, Hpod2 by exact Hn. congruence. }
  assert (Hspec : cdiSpecOf (drv st1) = cdiSpecOf (drv st)) by (rewrite Hd1; reflexivity).
  assert (Hrp : resourceFilePath (drv st1) = resourceFilePath (drv st))
    by (rewrite Hd1; reflexivity).
  assert (Hcp : cdiFilePath (drv st1) = cdiFilePath (drv st))
    by (rewrite Hd1; reflexivity).
  rewrite Hspec, Hjson1 in Hjson2. injection Hjson2 as <-.
  assert (Hresp : resp2 = resp1).
  { destruct (prepareClaim_cases _ _ _ _ _ Hrun2)
      as (pod & _ & [(err & _ & ->)|[(s & err & _ & _ & ->)|(s & Hp & _ & ->)]]).
    - rewrite lookup_insert_eq in Hr2. unfold failed, prepared in Hr2. discriminate Hr2.
    - rewrite lookup_insert_eq in Hr2. unfold failed, prepared in Hr2. discriminate Hr2.
    - rewrite lookup_insert_eq in Hr2. apply insert_id.
      rewrite Hr1, Hr2. unfold prepared. rewrite Hd1. reflexivity. }
  split; [unfold prepared; rewrite Hd1; reflexivity|]. split; [exact Hresp|].
  rewrite Hd2, Hf2, Hrp, Hcp, Hd1, Hf1. split.
  - unfold withPodResources. cbn [driverName nodeName pluginSocket resourceDir podResources].
    rewrite insert_insert_eq. reflexivity.
  - apply map_eq. intros k.
    destruct (decide (k = cdiFilePath (drv st))) as [->|Hc];
      [rewrite !lookup_insert_eq; reflexivity|].
    rewrite !(lookup_insert_ne _ (cdiFilePath (drv st))) by congruence.
    destruct (decide (k = resourceFilePath (drv st))) as [->|Hr];
      [rewrite !lookup_insert_eq; reflexivity|].
    rewrite !(lookup_insert_ne _ (resourceFilePath (drv st))) by congruence.
    rewrite !(lookup_insert_ne _ (cdiFilePath (drv st))) by congruence.
    rewrite !(lookup_insert_ne _ (resourceFilePath (drv st))) by congruence.
    reflexivity.
Qed.

Lemma prepare_retry_changes_nothing_witness :
  let resp1 := <["abc123" := prepared sampleDriver]> ∅ in
  let st1 := exec (@prepareClaim sampleJSON ∅ claimA) sampleState in
  let st2 := exec (@prepareClaim sampleJSON resp1 claimA) st1 in
  @prepareClaim sampleJSON ∅ claimA sampleState = (Ret resp1, st1) /\
  @prepareClaim sampleJSON resp1 claimA st1 = (Ret resp1, st2) /\
  drv st2 = drv st1 /\ files (world st2) = files (world st1).
Proof.
  intros resp1 st1 st2.
  assert (H1 : @prepareClaim sampleJSON ∅ claimA sampleState = (Ret resp1, st1))
    by (vm_compute; reflexivity).
  assert (H2 : @prepareClaim sampleJSON resp1 claimA st1 = (Ret resp1, st2))
    by (vm_compute; reflexivity).
  split; [exact H1|]. split; [exact H2|].
  refine (proj2 (proj2 (@prepare_retry_changes_nothing sampleJSON ∅ claimA sampleState
                          resp1 st1 (prepared sampleDriver)
                          resp1 st2 (prepared sampleDriver) H1 _ _ H2 _ _))).
  - vm_compute. reflexivity.
  - discriminate.
  - vm_compute. reflexivity.
  - discriminate.
Defined.
